(** * Video to GIF converter: timeline model, settings, command builder,
      engine adapter and conversion orchestrator

    A shallow embedding of the TypeScript sources

    - the timeline component (formatTime, parseTime, Mark IN and Mark OUT),
    - the video utilities (aspect-ratio helpers, validateSettings),
    - the FFmpeg service (initialize, buildFFmpegCommand, convertToGif),
    - the converter page (converterReducer, initializeFFmpeg, handleConvert),

    together with the properties established about them.

    Numbers.  A JavaScript [number] that carries a time or a ratio is
    modelled by an exact rational ([Q]); pixel counts, quality and frame
    rate, which the sources document as integers, are modelled by [Z].
    Arithmetic is exact: the rounding of binary64 is not part of the
    model, except in the module [B64] at the end of the definitions,
    which evaluates the palette size and the timecode functions on
    primitive binary64 floats.
    Strings are sequences of 8-bit characters. *)

From Stdlib Require Import ZArith QArith Qround Qabs Qminmax Lqa Lia Bool.
From Stdlib Require Import Strings.String Strings.Ascii Strings.Byte List Sorted.
From Stdlib Require Import Floats.
From stdpp Require Import gmap strings.
Import ListNotations.

Local Open Scope string_scope.
Local Open Scope Z_scope.

(* ================================================================== *)
(** * The JavaScript built-ins the sources rely on *)
(* ================================================================== *)

Module JS.

(** A number as the sources test it: finite, [NaN] or an infinity. *)
Inductive number : Type :=
  | Num (q : Q)
  | NaN
  | Infinity (negative : bool).

Definition Number_isFinite (x : number) : bool :=
  match x with Num _ => true | _ => false end.

Definition Number_isNaN (x : number) : bool :=
  match x with NaN => true | _ => false end.

(** ** Math *)

Definition Math_floor (x : Q) : Z := Qfloor x.

(** [Math.round] rounds to the nearest integer, ties towards +infinity. *)
Definition Math_round (x : Q) : Z := Qfloor (x + (1 # 2)).

Definition Math_min (x y : Q) : Q := Qmin x y.
Definition Math_max (x y : Q) : Q := Qmax x y.

(** Truncation towards zero, and the remainder operator [x % y], whose
    result has the sign of the dividend.  The sources only use it with
    the divisors 60 and 1. *)
Definition trunc (x : Q) : Z := Z.quot (Qnum x) (Zpos (Qden x)).

Definition rem (x y : Q) : Q := (x - y * inject_Z (trunc (x / y)))%Q.

(** ** Decimal digits *)

Definition is_digit (c : ascii) : bool :=
  ((48 <=? N_of_ascii c) && (N_of_ascii c <=? 57))%N.

Definition digit_of_Z (d : Z) : ascii := ascii_of_N (48 + Z.to_N d).

Definition Z_of_digit (c : ascii) : Z := Z.of_N (N_of_ascii c) - 48.

Fixpoint digits_aux (fuel : nat) (n : Z) (acc : string) : string :=
  match fuel with
  | O => acc
  | S fuel' =>
      let acc' := String (digit_of_Z (n mod 10)) acc in
      if n <? 10 then acc' else digits_aux fuel' (n / 10) acc'
  end.

(** The decimal digits of a non-negative integer; [Z.log2 n + 1] steps
    are more than its number of digits. *)
Definition decimal (n : Z) : string :=
  digits_aux (S (Z.to_nat (Z.log2 n))) n "".

(** [Number.prototype.toString] and template-literal interpolation of an
    integer-valued number (magnitudes from 1e21 on, which JavaScript
    prints in exponent notation, are outside the model). *)
Definition Number_toString (n : Z) : string :=
  if n <? 0 then "-" ++ decimal (- n) else decimal n.

(** ** Strings *)

Fixpoint cycle (k : nat) (pad rest : string) : string :=
  match k with
  | O => ""
  | S k' =>
      match rest with
      | String c r => String c (cycle k' pad r)
      | EmptyString =>
          match pad with
          | String c r => String c (cycle k' pad r)
          | EmptyString => ""
          end
      end
  end.

(** [s.padStart(targetLength, padString)] *)
Definition padStart (targetLength : nat) (padString s : string) : string :=
  if (targetLength <=? String.length s)%nat then s
  else cycle (targetLength - String.length s) padString padString ++ s.

(** [s.split(sep)] for a one-character separator. *)
Fixpoint split (sep : ascii) (s : string) : list string :=
  match s with
  | EmptyString => [""]
  | String c r =>
      if Ascii.eqb c sep then "" :: split sep r
      else match split sep r with
           | h :: t => String c h :: t
           | [] => [String c ""]
           end
  end.

(** [hay.includes(needle)] *)
Fixpoint includes (needle hay : string) : bool :=
  String.prefix needle hay ||
  match hay with
  | EmptyString => false
  | String _ r => includes needle r
  end.

(** [parts.join(sep)] *)
Definition join (sep : string) (parts : list string) : string :=
  String.concat sep parts.

(** ** parseInt(s, 10): leading white space (of the ASCII range), an
    optional sign, then the longest prefix of digits; [None] stands for
    NaN. *)

Definition is_space (c : ascii) : bool :=
  let n := N_of_ascii c in ((9 <=? n) && (n <=? 13) || (n =? 32))%N.

Fixpoint skip_spaces (s : string) : string :=
  match s with
  | String c r => if is_space c then skip_spaces r else s
  | EmptyString => s
  end.

Fixpoint read_digits (s : string) (acc : Z) : Z :=
  match s with
  | String c r => if is_digit c then read_digits r (10 * acc + Z_of_digit c) else acc
  | EmptyString => acc
  end.

Definition starts_with_digit (s : string) : bool :=
  match s with String c _ => is_digit c | EmptyString => false end.

Definition parseInt (s : string) : option Z :=
  let s1 := skip_spaces s in
  let '(negative, s2) :=
    match s1 with
    | String "-" r => (true, r)
    | String "+" r => (false, r)
    | _ => (false, s1)
    end in
  if starts_with_digit s2
  then Some (if negative : bool then - read_digits s2 0 else read_digits s2 0)
  else None.

(** ** Number.prototype.toFixed(fractionDigits), for magnitudes below 1e21:
    n is the integer nearest to |x| * 10^f (the larger one on a tie), its
    digits are padded with zeros to f+1 places and the point is put before
    the last f of them. *)
Definition toFixed (fractionDigits : nat) (x : Q) : string :=
  let negative := negb (Qle_bool 0 x) in
  let a := Qabs x in
  let n := Qfloor (a * inject_Z (10 ^ Z.of_nat fractionDigits) + (1 # 2)) in
  let m := padStart (S fractionDigits) "0" (decimal n) in
  let k := String.length m in
  let body :=
    match fractionDigits with
    | O => m
    | _ => substring 0 (k - fractionDigits) m ++ "." ++
           substring (k - fractionDigits) fractionDigits m
    end in
  if negative then "-" ++ body else body.

End JS.

(* ================================================================== *)
(** * Shared data types *)
(* ================================================================== *)

Module Types.

Record File := {
  file_name : string;
  file_type : string;
  file_size : Z;
  file_bytes : list byte
}.

Record Blob := {
  blob_bytes : list byte;
  blob_type : string
}.

Record VideoMetadata := {
  md_duration : Q;      (* in seconds *)
  md_width : Z;         (* in pixels *)
  md_height : Z;        (* in pixels *)
  md_frameRate : Z;     (* frames per second *)
  md_aspectRatio : Q    (* width / height *)
}.

Record ConversionSettings := {
  quality : Z;          (* 1-100 *)
  frameRate : Z;        (* 10, 15, 20, 24, 30 *)
  width : Z;            (* 100-1920 *)
  height : Z;           (* calculated from aspect ratio *)
  startTime : Q;        (* trim start time in seconds *)
  endTime : Q           (* trim end time in seconds *)
}.

Inductive error_type := upload | ffmpeg_error | conversion | download.

(** The two closures the page stores as [retryAction]. *)
Inductive retry := retry_handleConvert | retry_initializeFFmpeg.

Record ErrorState := {
  type : error_type;
  message : string;
  recoverable : bool;
  retryAction : option retry
}.

(** What a rejected promise or a [throw] carries: an [Error] object with
    its message, or any other value. *)
Inductive thrown := Error (msg : string) | NotAnError.

Inductive outcome (A : Type) := Ok (a : A) | Throw (e : thrown).
Arguments Ok {A} a.
Arguments Throw {A} e.

End Types.

(* ================================================================== *)
(** * Video utilities *)
(* ================================================================== *)

Module VideoUtils.
Import JS Types.

Definition calculateAspectRatio (w h : Z) : Q :=
  if h =? 0 then 1%Q else (inject_Z w / inject_Z h)%Q.

Definition calculateHeightFromWidth (w : Z) (aspectRatio : Q) : Z :=
  if Qeq_bool aspectRatio 0 then w
  else Math_round (inject_Z w / aspectRatio).

Definition calculateWidthFromHeight (h : Z) (aspectRatio : Q) : Z :=
  Math_round (inject_Z h * aspectRatio).

Record validation := {
  isValid : bool;
  error : option string
}.

Definition validateSettings (settings : ConversionSettings) : validation :=
  if (quality settings <? 1) || (100 <? quality settings) then
    {| isValid := false; error := Some "Quality must be between 1 and 100" |}
  else if negb (existsb (Z.eqb (frameRate settings)) [10; 15; 20; 24; 30]) then
    {| isValid := false;
       error := Some "Frame rate must be 10, 15, 20, 24, or 30 fps" |}
  else if (width settings <? 100) || (1920 <? width settings) then
    {| isValid := false;
       error := Some "Width must be between 100 and 1920 pixels" |}
  else if (height settings <? 100) || (1920 <? height settings) then
    {| isValid := false;
       error := Some "Height must be between 100 and 1920 pixels" |}
  else {| isValid := true; error := None |}.

End VideoUtils.

(* ================================================================== *)
(** * The timeline component *)
(* ================================================================== *)

Module Timeline.
Import JS.

Definition formatTime (seconds : Q) : string :=
  let mins := Math_floor (seconds / 60) in
  let secs := Math_floor (rem seconds 60) in
  let ms := Math_floor (rem seconds 1 * 100) in
  Number_toString mins ++ ":" ++
  padStart 2 "0" (Number_toString secs) ++ "." ++
  padStart 2 "0" (Number_toString ms).

(** [secsParts[1] ? Number.parseInt(secsParts[1], 10) / 100 : 0]; a missing
    or empty fraction is falsy. *)
Definition fraction (secsParts : list string) : number :=
  match nth_error secsParts 1 with
  | Some (String c r) =>
      match parseInt (String c r) with
      | Some ms => Num (inject_Z ms / 100)
      | None => NaN
      end
  | _ => Num 0
  end.

Definition head_or_empty (parts : list string) : string := nth 0 parts "".

(** [None] is the [null] result; the number returned otherwise is NaN when
    only the fraction fails to parse. *)
Definition parseTime (timeStr : string) : option number :=
  let parts := split ":" timeStr in
  match parts with
  | [p0; p1] =>
      let secsParts := split "." p1 in
      match parseInt p0, parseInt (head_or_empty secsParts) with
      | Some mins, Some secs =>
          Some match fraction secsParts with
               | Num ms => Num (inject_Z mins * 60 + inject_Z secs + ms)
               | _ => NaN
               end
      | _, _ => None
      end
  | [p0] =>
      let secsParts := split "." p0 in
      match parseInt (head_or_empty secsParts) with
      | Some secs =>
          Some match fraction secsParts with
               | Num ms => Num (inject_Z secs + ms)
               | _ => NaN
               end
      | None => None
      end
  | _ => None
  end.

(** The component's props and local state that the marking handlers use. *)
Record props := {
  duration : Q;
  currentTime : number;
  disabled : bool
}.

Record local_state := {
  localStartTime : Q;
  localEndTime : Q;
  startTimeInput : string;
  endTimeInput : string
}.

(** Each handler returns the new local state and the arguments of its
    [onTimeRangeChange] call, or [None] when it returns without effect. *)
Definition handleMarkIn (p : props) (st : local_state)
  : option (local_state * (Q * Q)) :=
  if disabled p then None
  else match currentTime p with
       | Num c =>
           let newStartTime := Math_max 0 (Math_min c (localEndTime st - (1 # 10))) in
           if Number_isFinite (Num newStartTime) then
             Some ({| localStartTime := newStartTime;
                      localEndTime := localEndTime st;
                      startTimeInput := formatTime newStartTime;
                      endTimeInput := endTimeInput st |},
                   (newStartTime, localEndTime st))
           else None
       | _ => None
       end.

Definition handleMarkOut (p : props) (st : local_state)
  : option (local_state * (Q * Q)) :=
  if disabled p then None
  else match currentTime p with
       | Num c =>
           let newEndTime :=
             Math_min (duration p) (Math_max c (localStartTime st + (1 # 10))) in
           if Number_isFinite (Num newEndTime) then
             Some ({| localStartTime := localStartTime st;
                      localEndTime := newEndTime;
                      startTimeInput := startTimeInput st;
                      endTimeInput := formatTime newEndTime |},
                   (localStartTime st, newEndTime))
           else None
       | _ => None
       end.

End Timeline.

(* ================================================================== *)
(** * The FFmpeg service *)
(* ================================================================== *)

Module FFmpegService.
Import JS Types.

(** The engine's private storage: file names to contents. *)
Abbreviation vfs := (gmap string (list byte)).

(** The fields of the service object; [ffmpeg] holds the storage of the
    engine instance, [initPromise] whether the field is non-null. *)
Record service := {
  ffmpeg : option vfs;
  loaded : bool;
  initPromise : bool
}.

Definition isLoaded (svc : service) : bool :=
  loaded svc && match ffmpeg svc with Some _ => true | None => false end.

Definition terminate (svc : service) : service :=
  match ffmpeg svc with
  | Some _ => {| ffmpeg := None; loaded := false; initPromise := initPromise svc |}
  | None => svc
  end.

(** ** Promises on a logical clock

    How a promise ends, with the milliseconds elapsed since the call that
    created it. *)
Inductive settle (A : Type) :=
  | Fulfilled (elapsed : Z) (v : A)
  | Rejected (elapsed : Z) (e : thrown)
  | Pending.
Arguments Fulfilled {A} elapsed v.
Arguments Rejected {A} elapsed e.
Arguments Pending {A}.

(** ** initialize *)

Definition LOAD_TIMEOUT : Z := 10000.

(** What the network and the engine do during one initialization: the two
    [toBlobURL] downloads (from the call to [initialize]), [FFmpeg.load]
    (from its own call), and the fate of an attempt already in flight. *)
Record load_scenario := {
  downloads : settle unit;
  load : settle unit;
  in_flight : settle unit
}.

Definition init_error_message (e : thrown) : string :=
  "Failed to initialize FFmpeg. " ++
  match e with
  | Error m =>
      if includes "timeout" m || includes "timed out" m then
        "The video processing library took too long to load. Please check your internet connection and try again."
      else if includes "network" m || includes "fetch" m then
        "Could not download the video processing library. Please check your internet connection and try again."
      else if includes "WASM" m || includes "WebAssembly" m then
        "Your browser does not support WebAssembly, which is required for video processing. Please use a modern browser."
      else m
  | NotAnError =>
      "An unknown error occurred. Please refresh the page and try again."
  end.

Definition init_failed (elapsed : Z) (e : thrown) : service * settle unit :=
  ({| ffmpeg := Some ∅; loaded := false; initPromise := false |},
   Rejected elapsed (Error (init_error_message e))).

Definition init_timed_out (elapsed : Z) : service * settle unit :=
  init_failed elapsed (Error "FFmpeg initialization timed out").

(** The timer of [LOAD_TIMEOUT] is started before the downloads; the race
    with [load] is entered when they are done.  [load] wins when it settles
    strictly before the timer fires. *)
Definition initialize (svc : service) (sc : load_scenario) : service * settle unit :=
  if loaded svc then (svc, Fulfilled 0 tt)
  else if initPromise svc then (svc, in_flight sc)
  else
    match downloads sc with
    | Pending =>
        ({| ffmpeg := Some ∅; loaded := false; initPromise := true |}, Pending)
    | Rejected tf e => init_failed tf e
    | Fulfilled tf _ =>
        if LOAD_TIMEOUT <=? tf then init_timed_out tf
        else
          match load sc with
          | Fulfilled tl _ =>
              if tf + tl <? LOAD_TIMEOUT then
                ({| ffmpeg := Some ∅; loaded := true; initPromise := true |},
                 Fulfilled (tf + tl) tt)
              else init_timed_out LOAD_TIMEOUT
          | Rejected tl e =>
              if tf + tl <? LOAD_TIMEOUT then init_failed (tf + tl) e
              else init_timed_out LOAD_TIMEOUT
          | Pending => init_timed_out LOAD_TIMEOUT
          end
    end.

(** ** buildFFmpegCommand *)

(** Calculate max colors based on quality. *)
Definition maxColors (quality : Z) : Z :=
  Math_floor (16 + inject_Z quality / 100 * 240).

Definition filterComplex (settings : ConversionSettings) : string :=
  join ","
    [ "fps=" ++ Number_toString (frameRate settings);
      "scale=" ++ Number_toString (width settings) ++ ":" ++
        Number_toString (height settings) ++ ":flags=lanczos";
      "split[s0][s1]";
      "[s0]palettegen=max_colors=" ++
        Number_toString (maxColors (quality settings)) ++ "[p]";
      "[s1][p]paletteuse=dither=bayer:bayer_scale=5" ].

Definition buildFFmpegCommand (inputFile outputFile : string)
    (settings : ConversionSettings) : list string :=
  let trimDuration := (endTime settings - startTime settings)%Q in
  [ "-ss"; toFixed 3 (startTime settings);
    "-i"; inputFile;
    "-t"; toFixed 3 trimDuration;
    "-vf"; filterComplex settings;
    "-loop"; "0";
    outputFile ].

(** ** Progress tracking from the engine's log *)

Definition two_digits (s : string) : option (string * string) :=
  match s with
  | String a (String b r) =>
      if is_digit a && is_digit b then Some (String a (String b ""), r) else None
  | _ => None
  end.

Definition expect (c : ascii) (s : string) : option string :=
  match s with
  | String d r => if Ascii.eqb c d then Some r else None
  | EmptyString => None
  end.

Fixpoint drop_prefix (p s : string) : option string :=
  match p, s with
  | EmptyString, _ => Some s
  | String a p', String b s' => if Ascii.eqb a b then drop_prefix p' s' else None
  | String _ _, EmptyString => None
  end.

(** The three groups of [(\d{2}):(\d{2}):(\d{2})] at the start of [s]. *)
Definition hms_here (s : string) : option (string * string * string) :=
  '(h, r1) ← two_digits s;
  r2 ← expect ":" r1;
  '(m, r3) ← two_digits r2;
  r4 ← expect ":" r3;
  '(sec, _) ← two_digits r4;
  Some (h, m, sec).

(** [message.match(/<label>(\d{2}):(\d{2}):(\d{2})/)]: the leftmost match. *)
Fixpoint match_hms (label message : string) : option (string * string * string) :=
  match drop_prefix label message ≫= hms_here with
  | Some groups => Some groups
  | None =>
      match message with
      | String _ r => match_hms label r
      | EmptyString => None
      end
  end.

(** [hours * 3600 + minutes * 60 + seconds]; on a group of two digits
    [Number.parseInt(g, 10)] is the value of the digits. *)
Definition hms_seconds (groups : string * string * string) : Z :=
  let '(h, m, s) := groups in
  let hours := read_digits h 0 in
  let minutes := read_digits m 0 in
  let seconds := read_digits s 0 in
  hours * 3600 + minutes * 60 + seconds.

Definition PROGRESS_THROTTLE : Z := 100.

(** The two variables the log listener closes over. *)
Record tracker := {
  videoDuration : Z;
  lastProgressUpdate : Z
}.

Definition tracker_init : tracker :=
  {| videoDuration := 0; lastProgressUpdate := 0 |}.

(** One log event, received when [Date.now()] is [now]: the new tracker and
    the value passed to [onProgress], if it is called. *)
Definition on_log (tr : tracker) (now : Z) (message : string) : tracker * option Q :=
  let tr1 :=
    match match_hms "Duration: " message with
    | Some groups =>
        {| videoDuration := hms_seconds groups;
           lastProgressUpdate := lastProgressUpdate tr |}
    | None => tr
    end in
  match match_hms "time=" message with
  | Some groups =>
      if (0 <? videoDuration tr1) && (PROGRESS_THROTTLE <=? now - lastProgressUpdate tr1)
      then
        let currentTime := hms_seconds groups in
        let progress :=
          Math_min (inject_Z currentTime / inject_Z (videoDuration tr1) * 100) 100 in
        ({| videoDuration := videoDuration tr1; lastProgressUpdate := now |},
         Some progress)
      else (tr1, None)
  | None => (tr1, None)
  end.

(** The values [onProgress] receives while the engine emits [events]. *)
Fixpoint listen (tr : tracker) (events : list (Z * string)) : list Q :=
  match events with
  | [] => []
  | (now, message) :: rest =>
      let '(tr', called) := on_log tr now message in
      match called with
      | Some p => p :: listen tr' rest
      | None => listen tr' rest
      end
  end.

(** ** convertToGif *)

(** The engine and the file reader, which the service treats as opaque:
    [exec] emits log events (with the clock reading at each), leaves the
    storage in some state and resolves with an exit code or rejects. *)
Record exec_result := {
  exec_log : list (Z * string);
  exec_files : vfs;
  exec_end : outcome Z
}.

Record Engine := {
  fetchFile : File → outcome (list byte);
  exec : vfs → list string → exec_result
}.

(** The state one call works on: the storage and the values passed to
    [onProgress] so far, oldest first. *)
Record machine := {
  files : vfs;
  delivered : list Q
}.

Definition M (A : Type) : Type := machine → machine * outcome A.

Definition ret {A} (a : A) : M A := λ s, (s, Ok a).

Definition bind {A B} (m : M A) (k : A → M B) : M B :=
  λ s, match m s with
       | (s', Ok a) => k a s'
       | (s', Throw e) => (s', Throw e)
       end.

Definition try_catch {A} (m : M A) (handler : thrown → M A) : M A :=
  λ s, match m s with
       | (s', Throw e) => handler e s'
       | r => r
       end.

Notation "'await' x := m 'in' k" := (bind m (λ x, k))
  (at level 10, x name, m at level 100, k at level 200, only parsing).

Definition lift {A} (o : outcome A) : M A := λ s, (s, o).

Definition writeFile (name : string) (data : list byte) : M unit :=
  λ s, ({| files := <[name := data]> (files s); delivered := delivered s |}, Ok tt).

Definition readFile (name : string) : M (list byte) :=
  λ s, match files s !! name with
       | Some data => (s, Ok data)
       | None => (s, Throw (Error "ErrnoError: FS error"))
       end.

Definition deleteFile (name : string) : M unit :=
  λ s, match files s !! name with
       | Some _ => ({| files := delete name (files s); delivered := delivered s |}, Ok tt)
       | None => (s, Throw (Error "ErrnoError: FS error"))
       end.

Definition onProgress (progress : Q) : M unit :=
  λ s, ({| files := files s; delivered := delivered s ++ [progress] |}, Ok tt).

(** Running the command: the listener registered by this call forwards
    progress while the engine logs. *)
Definition run_exec (E : Engine) (command : list string) : M Z :=
  λ s, let r := exec E (files s) command in
       ({| files := exec_files r;
           delivered := delivered s ++ listen tracker_init (exec_log r) |},
        exec_end r).

Definition conversion_failed (e : thrown) : thrown :=
  Error ("Video conversion failed: " ++
         match e with Error m => m | NotAnError => "Unknown error" end ++
         ". Please try a different video file or adjust the settings.").

Definition convert_body (E : Engine) (videoFile : File)
    (settings : ConversionSettings) : M Blob :=
  try_catch
    (let inputFileName := "input.mp4" in
     let outputFileName := "output.gif" in
     await fileData := lift (fetchFile E videoFile) in
     await _ := writeFile inputFileName fileData in
     let command := buildFFmpegCommand inputFileName outputFileName settings in
     await _ := run_exec E command in
     await data := readFile outputFileName in
     await _ := deleteFile inputFileName in
     await _ := deleteFile outputFileName in
     let blob := {| blob_bytes := data; blob_type := "image/gif" |} in
     await _ := onProgress 100 in
     ret blob)
    (λ e, lift (Throw (conversion_failed e))).

(** The service after the call, the values delivered to [onProgress], and
    the blob or the error the returned promise settles with. *)
Definition convertToGif (E : Engine) (svc : service) (videoFile : File)
    (settings : ConversionSettings) : service * list Q * outcome Blob :=
  match ffmpeg svc with
  | Some fs =>
      if loaded svc then
        let '(s, r) := convert_body E videoFile settings
                         {| files := fs; delivered := [] |} in
        ({| ffmpeg := Some (files s); loaded := loaded svc;
            initPromise := initPromise svc |}, delivered s, r)
      else (svc, [], Throw (Error "FFmpeg is not initialized. Please call initialize() first."))
  | None => (svc, [], Throw (Error "FFmpeg is not initialized. Please call initialize() first."))
  end.

End FFmpegService.

(* ================================================================== *)
(** * The converter page *)
(* ================================================================== *)

Module Converter.
Import JS Types FFmpegService.

(** The values of [conversionStatus]. *)
Module Status.
Inductive t := idle | loading | processing | complete | error.

Definition eqb (a b : t) : bool :=
  match a, b with
  | idle, idle | loading, loading | processing, processing
  | complete, complete | error, error => true
  | _, _ => false
  end.
End Status.
Abbreviation status := Status.t.

Record ConverterState := {
  uploadedFile : option File;
  videoMetadata : option VideoMetadata;
  settings : ConversionSettings;
  conversionStatus : status;
  progress : Q;
  gifBlob : option Blob;
  error : option ErrorState;
  ffmpegLoaded : bool
}.

(** [Partial<ConversionSettings>]: the fields that are present. *)
Record partial_settings := {
  p_quality : option Z;
  p_frameRate : option Z;
  p_width : option Z;
  p_height : option Z;
  p_startTime : option Q;
  p_endTime : option Q
}.

Inductive ConverterAction :=
  | SET_FILE (payload : File)
  | SET_METADATA (payload : VideoMetadata)
  | UPDATE_SETTINGS (payload : partial_settings)
  | SET_STATUS (payload : status)
  | SET_PROGRESS (payload : Q)
  | SET_GIF_BLOB (payload : Blob)
  | SET_ERROR (payload : ErrorState)
  | CLEAR_ERROR
  | SET_FFMPEG_LOADED (payload : bool)
  | RESET.

Definition initialState : ConverterState :=
  {| uploadedFile := None;
     videoMetadata := None;
     settings := {| quality := 80; frameRate := 15; width := 800; height := 600;
                    startTime := 0; endTime := 0 |};
     conversionStatus := Status.idle;
     progress := 0;
     gifBlob := None;
     error := None;
     ffmpegLoaded := false |}.

Definition merge (s : ConversionSettings) (p : partial_settings) : ConversionSettings :=
  {| quality := default (quality s) (p_quality p);
     frameRate := default (frameRate s) (p_frameRate p);
     width := default (width s) (p_width p);
     height := default (height s) (p_height p);
     startTime := default (startTime s) (p_startTime p);
     endTime := default (endTime s) (p_endTime p) |}.

Definition converterReducer (state : ConverterState) (action : ConverterAction)
  : ConverterState :=
  match action with
  | SET_FILE payload =>
      {| uploadedFile := Some payload;
         videoMetadata := None;
         settings := settings state;
         conversionStatus := Status.idle;
         progress := 0;
         gifBlob := None;
         error := None;
         ffmpegLoaded := ffmpegLoaded state |}
  | SET_METADATA payload =>
      let defaultWidth := Z.min (md_width payload) 800 in
      let defaultHeight := Math_round (inject_Z defaultWidth / md_aspectRatio payload) in
      {| uploadedFile := uploadedFile state;
         videoMetadata := Some payload;
         settings := {| quality := quality (settings state);
                        frameRate := frameRate (settings state);
                        width := defaultWidth;
                        height := defaultHeight;
                        startTime := 0;
                        endTime := md_duration payload |};
         conversionStatus := conversionStatus state;
         progress := progress state;
         gifBlob := gifBlob state;
         error := error state;
         ffmpegLoaded := ffmpegLoaded state |}
  | UPDATE_SETTINGS payload =>
      {| uploadedFile := uploadedFile state;
         videoMetadata := videoMetadata state;
         settings := merge (settings state) payload;
         conversionStatus := conversionStatus state;
         progress := progress state;
         gifBlob := gifBlob state;
         error := error state;
         ffmpegLoaded := ffmpegLoaded state |}
  | SET_STATUS payload =>
      {| uploadedFile := uploadedFile state;
         videoMetadata := videoMetadata state;
         settings := settings state;
         conversionStatus := payload;
         progress := progress state;
         gifBlob := gifBlob state;
         error := error state;
         ffmpegLoaded := ffmpegLoaded state |}
  | SET_PROGRESS payload =>
      {| uploadedFile := uploadedFile state;
         videoMetadata := videoMetadata state;
         settings := settings state;
         conversionStatus := conversionStatus state;
         progress := payload;
         gifBlob := gifBlob state;
         error := error state;
         ffmpegLoaded := ffmpegLoaded state |}
  | SET_GIF_BLOB payload =>
      {| uploadedFile := uploadedFile state;
         videoMetadata := videoMetadata state;
         settings := settings state;
         conversionStatus := Status.complete;
         progress := 100;
         gifBlob := Some payload;
         error := error state;
         ffmpegLoaded := ffmpegLoaded state |}
  | SET_ERROR payload =>
      {| uploadedFile := uploadedFile state;
         videoMetadata := videoMetadata state;
         settings := settings state;
         conversionStatus := Status.error;
         progress := progress state;
         gifBlob := gifBlob state;
         error := Some payload;
         ffmpegLoaded := ffmpegLoaded state |}
  | CLEAR_ERROR =>
      {| uploadedFile := uploadedFile state;
         videoMetadata := videoMetadata state;
         settings := settings state;
         conversionStatus := conversionStatus state;
         progress := progress state;
         gifBlob := gifBlob state;
         error := None;
         ffmpegLoaded := ffmpegLoaded state |}
  | SET_FFMPEG_LOADED payload =>
      {| uploadedFile := uploadedFile state;
         videoMetadata := videoMetadata state;
         settings := settings state;
         conversionStatus := conversionStatus state;
         progress := progress state;
         gifBlob := gifBlob state;
         error := error state;
         ffmpegLoaded := payload |}
  | RESET =>
      {| uploadedFile := uploadedFile initialState;
         videoMetadata := videoMetadata initialState;
         settings := settings initialState;
         conversionStatus := conversionStatus initialState;
         progress := progress initialState;
         gifBlob := gifBlob initialState;
         error := error initialState;
         ffmpegLoaded := ffmpegLoaded state |}
  end.

(** ** What a handler does, on the logical clock

    Each entry carries the milliseconds elapsed since the handler was
    invoked. *)
Inductive event :=
  | Dispatch (action : ConverterAction)
  | SetTimeout (delay : Z)
  | ClearTimeout
  | Call_initialize
  | Call_convertToGif (videoFile : File) (settings : ConversionSettings).

Record run := {
  trace : list (Z * event);
  engine_after : service
}.

Definition dispatched (tr : list (Z * event)) : list ConverterAction :=
  omap (λ te, match snd te with Dispatch a => Some a | _ => None end) tr.

(** The state of the page once every dispatch of the trace is reduced. *)
Definition state_after (state : ConverterState) (tr : list (Z * event)) : ConverterState :=
  fold_left converterReducer (dispatched tr) state.

(** What the handler's surroundings do: the service object it talks to,
    how loading goes, how the promise of [convertToGif] settles (from its
    call) and the calls of [onProgress] the service makes (from the same
    instant). *)
Record environment := {
  engine : service;
  loading_scenario : load_scenario;
  conversion_settles : settle Blob;
  progress_calls : list (Z * Q)
}.

(** ** initializeFFmpeg *)

Definition init_page_message (e : thrown) : string :=
  match e with
  | Error m =>
      if includes "network" m || includes "fetch" m then
        "Failed to load video processing library due to network issues. Please check your internet connection and try again."
      else if includes "timeout" m then
        "Loading video processing library timed out. Please check your internet connection and try again."
      else m
  | NotAnError =>
      "Failed to initialize FFmpeg. Please refresh the page and try again."
  end.

Definition initializeFFmpeg (svc : service) (sc : load_scenario)
  : list (Z * event) * service * settle unit :=
  if isLoaded svc then
    ([(0, Dispatch (SET_FFMPEG_LOADED true))], svc, Fulfilled 0 tt)
  else
    let '(svc', r) := initialize svc sc in
    let entry := [(0, Dispatch (SET_STATUS Status.loading)); (0, Call_initialize)] in
    match r with
    | Fulfilled t _ =>
        ((entry ++ [(t, Dispatch (SET_FFMPEG_LOADED true));
                    (t, Dispatch (SET_STATUS Status.idle))])%list,
         svc', Fulfilled t tt)
    | Rejected t e =>
        ((entry ++ [(t, Dispatch (SET_ERROR
                       {| type := ffmpeg_error;
                          message := init_page_message e;
                          recoverable := true;
                          retryAction := Some retry_initializeFFmpeg |}))])%list,
         svc', Rejected t e)
    | Pending => (entry, svc', Pending)
    end.

(** ** handleConvert *)

Definition CONVERSION_TIMEOUT : Z := 5 * 60 * 1000.

Definition timeout_message : string :=
  "Conversion timed out after 5 minutes. Please try with a shorter video or reduce the quality settings.".

Definition conversion_error_message (e : thrown) : string :=
  match e with
  | Error m =>
      if includes "timed out" m then m
      else if includes "memory" m || includes "out of memory" m then
        "Not enough memory to process this video. Try reducing the video dimensions, quality settings, or use a shorter video clip."
      else if includes "format" m || includes "codec" m then
        "This video format or codec may not be supported. Please try converting the video to MP4 format first, or try a different video file."
      else if includes "corrupted" m || includes "invalid" m then
        "The video file appears to be corrupted or invalid. Please try a different video file."
      else if includes "abort" m then "Conversion was cancelled. Please try again."
      else m
  | NotAnError => "An unexpected error occurred during conversion."
  end.

(** The [catch] block, entered at [t] with the thrown value. *)
Definition catch_block (t : Z) (e : thrown) : list (Z * event) :=
  [(t, ClearTimeout);
   (t, Dispatch (SET_ERROR {| type := conversion;
                              message := conversion_error_message e;
                              recoverable := true;
                              retryAction := Some retry_handleConvert |}))].

(** The dispatches of the [onProgress] calls made from [lo] (inclusive) to
    [hi] (exclusive), the conversion having been called at [t1]. *)
Definition progress_between (t1 lo hi : Z) (calls : list (Z * Q)) : list (Z * event) :=
  map (λ c, (t1 + fst c, Dispatch (SET_PROGRESS (snd c))))
      (filter (λ c, (lo <=? t1 + fst c) && (t1 + fst c <? hi)) calls).

Definition progress_from (t1 lo : Z) (calls : list (Z * Q)) : list (Z * event) :=
  map (λ c, (t1 + fst c, Dispatch (SET_PROGRESS (snd c))))
      (filter (λ c, lo <=? t1 + fst c) calls).

(** Lazy load FFmpeg if not already loaded: what is dispatched, the
    service afterwards and when the handler can go on. *)
Definition lazy_load (state : ConverterState) (env : environment)
  : list (Z * event) * service * settle unit :=
  if ffmpegLoaded state then ([], engine env, Fulfilled 0 tt)
  else initializeFFmpeg (engine env) (loading_scenario env).

(** The handler from its invocation on.  The timer of [CONVERSION_TIMEOUT]
    is started at once; the listener for its abort signal is attached when
    the conversion is called, at [t1], and hears the signal only if it is
    raised after that.  The conversion wins the race when it settles
    strictly before the signal. *)
Definition handleConvert (state : ConverterState) (env : environment) : run :=
  match uploadedFile state, videoMetadata state with
  | Some file, Some _ =>
      let timer := [(0, SetTimeout CONVERSION_TIMEOUT)] in
      let '(init_events, svc, ready) := lazy_load state env in
      match ready with
      | Pending => {| trace := (timer ++ init_events)%list; engine_after := svc |}
      | Rejected t e =>
          {| trace := (timer ++ init_events ++ catch_block t e)%list;
             engine_after := svc |}
      | Fulfilled t1 _ =>
          let start :=
            [(t1, Dispatch (SET_STATUS Status.processing));
             (t1, Dispatch (SET_PROGRESS 0));
             (t1, Dispatch CLEAR_ERROR);
             (t1, Call_convertToGif file (settings state))] in
          let calls := progress_calls env in
          let listening := t1 <? CONVERSION_TIMEOUT in
          let timed_out :=
            (progress_between t1 t1 CONVERSION_TIMEOUT calls ++
             catch_block CONVERSION_TIMEOUT (Error timeout_message) ++
             progress_from t1 CONVERSION_TIMEOUT calls)%list in
          let rest :=
            match conversion_settles env with
            | Fulfilled tc blob =>
                if listening && (CONVERSION_TIMEOUT <=? t1 + tc) then timed_out
                else (progress_between t1 t1 (t1 + tc + 1) calls ++
                      [(t1 + tc, ClearTimeout);
                       (t1 + tc, Dispatch (SET_GIF_BLOB blob))])%list
            | Rejected tc e =>
                if listening && (CONVERSION_TIMEOUT <=? t1 + tc) then timed_out
                else (progress_between t1 t1 (t1 + tc + 1) calls ++
                      catch_block (t1 + tc) e)%list
            | Pending =>
                if listening then timed_out
                else progress_from t1 t1 calls
            end in
          {| trace := (timer ++ init_events ++ start ++ rest)%list;
             engine_after := svc |}
      end
  | _, _ => {| trace := []; engine_after := engine env |}
  end.

(** ** The Convert button *)

Definition isConverting (state : ConverterState) : bool :=
  Status.eqb (conversionStatus state) Status.processing.

Definition isLoading (state : ConverterState) : bool :=
  Status.eqb (conversionStatus state) Status.loading.

Definition convertButton_isDisabled (state : ConverterState) : bool :=
  negb (bool_decide (is_Some (uploadedFile state))) ||
  negb (bool_decide (is_Some (videoMetadata state))) ||
  isConverting state || isLoading state.

(** A press reaches [onPress] only when the button is enabled. *)
Definition pressConvert (state : ConverterState) (env : environment) : run :=
  if convertButton_isDisabled state
  then {| trace := []; engine_after := engine env |}
  else handleConvert state env.

End Converter.

(* ================================================================== *)
(** * Evaluation on binary64 numbers *)
(* ================================================================== *)

(** The palette size and the timecode functions on primitive floats, to
    see where rounding makes the program differ from exact arithmetic.
    In [Math_floor], [rem] and [formatTime], [None] stands for an operand
    that is not finite. *)
Module B64.
Import JS.

(** The exact value of a finite binary64 number. *)
Definition value (f : float) : option Q :=
  match Prim2SF f with
  | S754_zero _ => Some 0%Q
  | S754_finite s m e =>
      let magnitude :=
        if 0 <=? e then inject_Z (Zpos m * 2 ^ e)
        else (Zpos m # Pos.pow 2 (Z.to_pos (- e)))%Q in
      Some (if s then (- magnitude)%Q else magnitude)
  | _ => None
  end.

(** The binary64 number of a dyadic rational; exact when the rational is
    representable, as integers below 2^53 and remainders are. *)
Definition of_Q (q : Q) : float :=
  let r := Qred q in
  let e := - Z.log2 (Zpos (Qden r)) in
  match Qnum r with
  | Z0 => zero
  | Zpos n => SF2Prim (S754_finite false n e)
  | Zneg n => SF2Prim (S754_finite true n e)
  end.

Definition of_Z (z : Z) : float := of_Q (inject_Z z).

Definition Math_floor (x : float) : option Z := Qfloor <$> value x.

(** [x % y]: the remainder of two finite numbers is representable, so no
    rounding takes place. *)
Definition rem (x y : float) : option float :=
  vx ← value x; vy ← value y; Some (of_Q (JS.rem vx vy)).

Definition maxColors (quality : Z) : option Z :=
  Math_floor (16 + of_Z quality / 100 * 240)%float.

Definition formatTime (seconds : float) : option string :=
  mins ← Math_floor (seconds / 60)%float;
  s60 ← rem seconds 60%float;
  secs ← Math_floor s60;
  s1 ← rem seconds 1%float;
  ms ← Math_floor (s1 * 100)%float;
  Some (Number_toString mins ++ ":" ++
        padStart 2 "0" (Number_toString secs) ++ "." ++
        padStart 2 "0" (Number_toString ms)).

(** The number [Number.parseInt] returns: the integer (exact below 2^53)
    or NaN. *)
Definition number_of (parsed : option Z) : float :=
  match parsed with Some z => of_Z z | None => nan end.

Definition fraction (secsParts : list string) : float :=
  match nth_error secsParts 1 with
  | Some (String c r) => (number_of (parseInt (String c r)) / 100)%float
  | _ => 0%float
  end.

(** [None] is the [null] result. *)
Definition parseTime (timeStr : string) : option float :=
  match split ":" timeStr with
  | [p0; p1] =>
      let secsParts := split "." p1 in
      match parseInt p0, parseInt (Timeline.head_or_empty secsParts) with
      | Some mins, Some secs =>
          Some (of_Z mins * 60 + of_Z secs + fraction secsParts)%float
      | _, _ => None
      end
  | [p0] =>
      let secsParts := split "." p0 in
      match parseInt (Timeline.head_or_empty secsParts) with
      | Some secs => Some (of_Z secs + fraction secsParts)%float
      | None => None
      end
  | _ => None
  end.

End B64.

(* ================================================================== *)
(** * Predicates used in the statements *)
(* ================================================================== *)

Module Props.

(** Every character of a string passes a test. *)
Fixpoint all_chars (P : ascii → bool) (s : string) : bool :=
  match s with
  | EmptyString => true
  | String c r => P c && all_chars P r
  end.

Definition all_digits (s : string) : bool := all_chars JS.is_digit s.

Definition without (sep : ascii) (s : string) : bool :=
  all_chars (λ c, negb (Ascii.eqb c sep)) s.

Definition is_zero_char (c : ascii) : bool := Ascii.eqb c "0".

(** A list of numbers that never decreases. *)
Fixpoint nondecreasing (l : list Q) : bool :=
  match l with
  | x :: (y :: _) as rest => Qle_bool x y && nondecreasing rest
  | _ => true
  end.

(** The positions ([time=]) and the total durations ([Duration: ]) that a
    log reports, in seconds, in the order of its events. *)
Definition reported_positions (events : list (Z * string)) : list Z :=
  omap (λ e, FFmpegService.hms_seconds <$> FFmpegService.match_hms "time=" (snd e)) events.

Definition reported_durations (events : list (Z * string)) : list Z :=
  omap (λ e, FFmpegService.hms_seconds <$> FFmpegService.match_hms "Duration: " (snd e)) events.

(** A log that reports a single total duration and never goes back. *)
Definition steady (events : list (Z * string)) : Prop :=
  (∃ total, Forall (eq total) (reported_durations events))
  ∧ StronglySorted Z.le (reported_positions events).

(** The share of the total, capped at 100. *)
Definition percent (total position : Z) : Q :=
  JS.Math_min (inject_Z position / inject_Z total * 100) 100.

(** The values a call of [convertToGif] passes to [onProgress], and how
    the call ends. *)
Definition delivered_by (E : FFmpegService.Engine) (svc : FFmpegService.service)
    (videoFile : Types.File) (settings : Types.ConversionSettings) : list Q :=
  snd (fst (FFmpegService.convertToGif E svc videoFile settings)).

Definition result_of (E : FFmpegService.Engine) (svc : FFmpegService.service)
    (videoFile : Types.File) (settings : Types.ConversionSettings)
  : Types.outcome Types.Blob :=
  snd (FFmpegService.convertToGif E svc videoFile settings).

(** The engine's storage after the call. *)
Definition storage_after (E : FFmpegService.Engine) (svc : FFmpegService.service)
    (videoFile : Types.File) (settings : Types.ConversionSettings)
  : option (gmap string (list byte)) :=
  FFmpegService.ffmpeg (fst (fst (FFmpegService.convertToGif E svc videoFile settings))).

(** The service in one of its resting states: loaded, or with nothing
    loaded and no initialization in flight. *)
Definition at_rest (svc : FFmpegService.service) : Prop :=
  FFmpegService.isLoaded svc = true
  ∨ (FFmpegService.loaded svc = false ∧ FFmpegService.initPromise svc = false).

(** The error the page stores when the conversion timer fires. *)
Definition timeout_error : Types.ErrorState :=
  {| Types.type := Types.conversion;
     Types.message := Converter.timeout_message;
     Types.recoverable := true;
     Types.retryAction := Some Types.retry_handleConvert |}.

(** The events that end a conversion on the page: the blob or an error. *)
Definition is_result (e : Converter.event) : bool :=
  match e with
  | Converter.Dispatch (Converter.SET_ERROR _)
  | Converter.Dispatch (Converter.SET_GIF_BLOB _) => true
  | _ => false
  end.

Definition is_progress (e : Converter.event) : bool :=
  match e with
  | Converter.Dispatch (Converter.SET_PROGRESS _) => true
  | _ => false
  end.

(** The settings with another trim window. *)
Definition with_trim (s : Types.ConversionSettings) (a b : Q) : Types.ConversionSettings :=
  {| Types.quality := Types.quality s; Types.frameRate := Types.frameRate s;
     Types.width := Types.width s; Types.height := Types.height s;
     Types.startTime := a; Types.endTime := b |}.

End Props.

(* ================================================================== *)
(** * Sample data for the concrete evaluations *)
(* ================================================================== *)

Module Samples.
Import JS Types FFmpegService Converter.

(** Fifteen frames per second, 800 by 450, the first ten seconds. *)
Definition settings_of_quality (q : Z) : ConversionSettings :=
  {| quality := q; frameRate := 15; width := 800; height := 450;
     startTime := 0; endTime := 10 |}.

(** In-range settings whose trim window is inverted. *)
Definition inverted_trim : ConversionSettings :=
  {| quality := 80; frameRate := 15; width := 800; height := 450;
     startTime := 5; endTime := 2 |}.

Definition clip : File :=
  {| file_name := "clip.mp4"; file_type := "video/mp4"; file_size := 3;
     file_bytes := [x00; x01; x02]%list |}.

(** A loaded service with empty storage. *)
Definition ready_service : service :=
  {| ffmpeg := Some ∅; loaded := true; initPromise := true |}.

(** An engine that writes the output and whose log reports a length of
    10 seconds, then the positions 5 seconds and 3 seconds. *)
Definition backwards_log : list (Z * string) :=
  [ (1000, "  Duration: 00:00:10.00, start: 0.000000, bitrate: 1205 kb/s");
    (2000, "frame=   75 fps=0.0 q=-0.0 size=     256kB time=00:00:05.00 bitrate= 419.4kbits/s");
    (3000, "frame=   45 fps=0.0 q=-0.0 size=     256kB time=00:00:03.00 bitrate= 699.0kbits/s") ].

Definition backwards_engine : Engine :=
  {| fetchFile := λ f, Ok (file_bytes f);
     exec := λ fs command,
       {| exec_log := backwards_log;
          exec_files := <["output.gif" := [x47; x49; x46]%list]> fs;
          exec_end := Ok 0 |} |}.

(** The same run with the positions 3 seconds and 5 seconds. *)
Definition forward_engine : Engine :=
  {| fetchFile := λ f, Ok (file_bytes f);
     exec := λ fs command,
       {| exec_log :=
            [ (1000, "  Duration: 00:00:10.00, start: 0.000000, bitrate: 1205 kb/s");
              (2000, "frame=   45 fps=0.0 q=-0.0 size=     256kB time=00:00:03.00 bitrate= 699.0kbits/s");
              (3000, "frame=   75 fps=0.0 q=-0.0 size=     256kB time=00:00:05.00 bitrate= 419.4kbits/s") ];
          exec_files := <["output.gif" := [x47; x49; x46]%list]> fs;
          exec_end := Ok 0 |} |}.

(** An engine that ends with exit code 1 and writes no output. *)
Definition failing_engine : Engine :=
  {| fetchFile := λ f, Ok (file_bytes f);
     exec := λ fs command,
       {| exec_log := [(1000, "clip.mp4: Invalid data found when processing input")];
          exec_files := fs;
          exec_end := Ok 1 |} |}.

Definition clip_metadata : VideoMetadata :=
  {| md_duration := 10; md_width := 1920; md_height := 1080; md_frameRate := 30;
     md_aspectRatio := 16 # 9 |}.

(** The page in the middle of a conversion, at 40 percent. *)
Definition converting : ConverterState :=
  {| uploadedFile := Some clip;
     videoMetadata := Some clip_metadata;
     settings := settings_of_quality 80;
     conversionStatus := Status.processing;
     progress := 40;
     gifBlob := None;
     error := None;
     ffmpegLoaded := true |}.

(** The page with a clip loaded and the engine not yet loaded. *)
Definition ready_to_convert : ConverterState :=
  {| uploadedFile := Some clip;
     videoMetadata := Some clip_metadata;
     settings := settings_of_quality 80;
     conversionStatus := Status.idle;
     progress := 0;
     gifBlob := None;
     error := None;
     ffmpegLoaded := false |}.

Definition fresh_service : service :=
  {| ffmpeg := None; loaded := false; initPromise := false |}.

(** The engine loads in 2.5 seconds; the conversion never settles and
    reports 10 percent after one second. *)
Definition stuck_conversion (svc : service) : environment :=
  {| engine := svc;
     loading_scenario := {| downloads := Fulfilled 2000 tt;
                            load := Fulfilled 500 tt;
                            in_flight := Pending |};
     conversion_settles := Pending;
     progress_calls := [(1000, 10%Q)] |}.

(** A ten-second clip, fully selected, with the playhead at 3 seconds. *)
Definition playhead_at_3 : Timeline.props :=
  {| Timeline.duration := 10; Timeline.currentTime := Num 3;
     Timeline.disabled := false |}.

Definition whole_clip : Timeline.local_state :=
  {| Timeline.localStartTime := 0; Timeline.localEndTime := 10;
     Timeline.startTimeInput := "0:00.00"; Timeline.endTimeInput := "0:10.00" |}.

End Samples.

(* ================================================================== *)
(** * Properties *)
(* ================================================================== *)

Import JS Types Props.

#[local] Arguments String.append !s1 s2 : simpl nomatch.

(** ** Rounding *)

Section Rounding.

Local Open Scope Q_scope.

Lemma floor_bounds (x : Q) :
  inject_Z (Qfloor x) <= x ∧ x < inject_Z (Qfloor x) + 1.
Proof.
  split; [apply Qfloor_le |].
  generalize (Qlt_floor x). rewrite inject_Z_plus. trivial.
Qed.

(** The floor is the only integer within one below. *)
Lemma floor_unique (x : Q) (z : Z) :
  inject_Z z <= x → x < inject_Z z + 1 → Qfloor x = z.
Proof.
  intros Hlo Hhi. destruct (floor_bounds x) as [Flo Fhi].
  assert (H1 : inject_Z z < inject_Z (Qfloor x + 1))
    by (rewrite inject_Z_plus; change (inject_Z 1) with 1; lra).
  assert (H2 : inject_Z (Qfloor x) < inject_Z (z + 1))
    by (rewrite inject_Z_plus; change (inject_Z 1) with 1; lra).
  rewrite <- Zlt_Qlt in H1, H2. lia.
Qed.

Lemma floor_nonneg (x : Q) : 0 <= x → (0 <= Qfloor x)%Z.
Proof.
  intros Hx. destruct (floor_bounds x) as [_ Fhi].
  assert (H : inject_Z (-1) < inject_Z (Qfloor x))
    by (change (inject_Z (-1)) with (-1); lra).
  rewrite <- Zlt_Qlt in H. lia.
Qed.

(** On a non-negative number truncation is the floor. *)
Lemma trunc_floor (x : Q) : 0 <= x → trunc x = Qfloor x.
Proof.
  intros Hx. unfold trunc, Qfloor. destruct x as [n d]. simpl.
  apply Z.quot_div_nonneg; [| lia].
  unfold Qle in Hx. simpl in Hx. lia.
Qed.

Lemma inject_div_bounds (a b : Z) :
  (0 < b)%Z →
  inject_Z b * inject_Z (a / b) <= inject_Z a ∧
  inject_Z a < inject_Z b * inject_Z (a / b) + inject_Z b.
Proof.
  intros Hb. rewrite <- !inject_Z_mult, <- inject_Z_plus, <- Zle_Qle, <- Zlt_Qlt.
  pose proof (Z.mul_div_le a b Hb). pose proof (Z.mul_succ_div_gt a b Hb). lia.
Qed.

End Rounding.

(** Division by the constants of the sources, as multiplication. *)
Ltac by_constants :=
  unfold Qdiv in *;
  change (/ 100)%Q with (1 # 100)%Q in *;
  change (/ 60)%Q with (1 # 60)%Q in *;
  change (/ 1)%Q with 1%Q in *.

(** ** Strings *)

Lemma append_assoc (a b c : string) : (a ++ b) ++ c = a ++ (b ++ c).
Proof.
  induction a as [| x a IH]; simpl; [reflexivity |]. f_equal. exact IH.
Qed.

Lemma append_empty_r (a : string) : a ++ "" = a.
Proof.
  induction a as [| x a IH]; simpl; [reflexivity |]. f_equal. exact IH.
Qed.

Lemma length_append (a b : string) :
  String.length (a ++ b) = (String.length a + String.length b)%nat.
Proof.
  induction a as [| x a IH]; simpl; [reflexivity |]. f_equal. exact IH.
Qed.

(** ** Digits: printing and reading back *)

Lemma digit_of_Z_spec (d : Z) :
  0 <= d <= 9 → is_digit (digit_of_Z d) = true ∧ Z_of_digit (digit_of_Z d) = d.
Proof.
  intros H.
  assert (C : d = 0 ∨ d = 1 ∨ d = 2 ∨ d = 3 ∨ d = 4 ∨ d = 5 ∨ d = 6 ∨ d = 7 ∨ d = 8 ∨ d = 9)
    by lia.
  repeat (destruct C as [-> | C]; [split; reflexivity |]). subst d. split; reflexivity.
Qed.

Lemma all_chars_append (P : ascii → bool) (a b : string) :
  all_chars P (a ++ b) = all_chars P a && all_chars P b.
Proof.
  induction a as [| c a IH]; simpl; [reflexivity |].
  rewrite IH. apply andb_assoc.
Qed.

Lemma all_chars_impl (P Q : ascii → bool) (s : string) :
  (∀ c, P c = true → Q c = true) → all_chars P s = true → all_chars Q s = true.
Proof.
  intros HPQ. induction s as [| c s IH]; simpl; [reflexivity |].
  intros H. apply andb_true_iff in H as [H1 H2].
  rewrite (HPQ _ H1), (IH H2). reflexivity.
Qed.

(** What [digits_aux] puts in front of its accumulator: digits, at least
    one, that read back as the number. *)
Lemma digits_aux_spec (fuel : nat) : ∀ (n : Z) (acc : string),
  0 <= n < 2 ^ Z.of_nat (S fuel) →
  ∃ (ds : string) (p : Z),
    digits_aux (S fuel) n acc = ds ++ acc
    ∧ all_digits ds = true
    ∧ ds ≠ ""
    ∧ ∀ a rest, read_digits (ds ++ rest) a = read_digits rest (a * p + n).
Proof.
  induction fuel as [| fuel IH]; intros n acc Hn.
  - assert (Hlt : n < 10) by (change (2 ^ Z.of_nat 1) with 2 in Hn; lia).
    destruct (digit_of_Z_spec n) as [Hd Hv]; [lia |].
    exists (String (digit_of_Z n) ""), 10.
    cbn [digits_aux]. rewrite (Z.mod_small n 10) by lia.
    rewrite (proj2 (Z.ltb_lt n 10) Hlt).
    repeat split.
    + unfold all_digits; simpl. rewrite Hd. reflexivity.
    + discriminate.
    + intros a rest. simpl. rewrite Hd, Hv. f_equal. lia.
  - change (digits_aux (S (S fuel)) n acc) with
      (let acc' := String (digit_of_Z (n mod 10)) acc in
       if n <? 10 then acc' else digits_aux (S fuel) (n / 10) acc').
    cbv zeta.
    destruct (digit_of_Z_spec (n mod 10)) as [Hd Hv];
      [pose proof (Z.mod_pos_bound n 10); lia |].
    destruct (Z.ltb_spec n 10) as [Hlt | Hge].
    + exists (String (digit_of_Z (n mod 10)) ""), 10.
      repeat split.
      * unfold all_digits; simpl. rewrite Hd. reflexivity.
      * discriminate.
      * intros a rest. simpl. rewrite Hd, Hv. f_equal.
        rewrite Z.mod_small by lia. lia.
    + destruct (IH (n / 10) (String (digit_of_Z (n mod 10)) acc)) as (ds & p & E & Hall & Hne & Hread).
      { split; [apply Z.div_pos; lia |].
        apply Z.div_lt_upper_bound; [lia |].
        rewrite Nat2Z.inj_succ, Z.pow_succ_r in Hn by lia. lia. }
      exists (ds ++ String (digit_of_Z (n mod 10)) ""), (10 * p).
      repeat split.
      * rewrite E, append_assoc. reflexivity.
      * unfold all_digits in *. rewrite all_chars_append, Hall. simpl.
        rewrite Hd. reflexivity.
      * destruct ds; [congruence | discriminate].
      * intros a rest. rewrite append_assoc. simpl. rewrite Hread. simpl.
        rewrite Hd, Hv. f_equal.
        pose proof (Z.div_mod n 10). lia.
Qed.

Lemma decimal_spec (n : Z) :
  0 <= n →
  all_digits (decimal n) = true
  ∧ decimal n ≠ ""
  ∧ ∃ p, ∀ a rest, read_digits (decimal n ++ rest) a = read_digits rest (a * p + n).
Proof.
  intros Hn. unfold decimal.
  destruct (digits_aux_spec (Z.to_nat (Z.log2 n)) n "") as (ds & p & E & Hall & Hne & Hread).
  { split; [exact Hn |].
    rewrite Nat2Z.inj_succ, Z2Nat.id by apply Z.log2_nonneg.
    destruct (Z.eq_dec n 0) as [-> | Hnz]; [reflexivity |].
    apply Z.log2_spec. lia. }
  rewrite E, append_empty_r. repeat split; try assumption.
  exists p. exact Hread.
Qed.

Lemma read_digits_stop (sep : ascii) (r : string) (a : Z) :
  is_digit sep = false → read_digits (String sep r) a = a.
Proof. intros H. simpl. rewrite H. reflexivity. Qed.

Lemma decimal_read (n : Z) : 0 <= n → read_digits (decimal n) 0 = n.
Proof.
  intros Hn. destruct (decimal_spec n Hn) as (_ & _ & p & H).
  specialize (H 0 ""). rewrite append_empty_r in H. rewrite H. simpl. lia.
Qed.

(** [parseInt] on a string that starts with a digit reads its digits. *)
Lemma parseInt_digit (c : ascii) (r : string) :
  is_digit c = true → parseInt (String c r) = Some (read_digits (String c r) 0).
Proof.
  destruct c as [[] [] [] [] [] [] [] []]; intros H; try discriminate H; reflexivity.
Qed.

Lemma parseInt_decimal (n : Z) : 0 <= n → parseInt (decimal n) = Some n.
Proof.
  intros Hn. destruct (decimal_spec n Hn) as (Hall & Hne & _).
  pose proof (decimal_read n Hn) as Hr.
  destruct (decimal n) as [| c r]; [congruence |].
  unfold all_digits in Hall. simpl in Hall. apply andb_true_iff in Hall as [Hc _].
  rewrite (parseInt_digit c r Hc), Hr. reflexivity.
Qed.

(** ** Padding with zeros *)

Lemma cycle_zeros (k : nat) : ∀ rest,
  all_chars is_zero_char rest = true →
  all_chars is_zero_char (cycle k "0" rest) = true
  ∧ String.length (cycle k "0" rest) = k.
Proof.
  induction k as [| k IH]; intros rest Hrest; simpl; [split; reflexivity |].
  destruct rest as [| c r].
  - destruct (IH "" eq_refl) as [H1 H2]. simpl. rewrite H1, H2. split; reflexivity.
  - simpl in Hrest. apply andb_true_iff in Hrest as [Hc Hr].
    destruct (IH r Hr) as [H1 H2]. simpl. rewrite Hc, H1, H2. split; reflexivity.
Qed.

Lemma padStart_zeros (k : nat) (s : string) :
  ∃ z, padStart k "0" s = z ++ s
       ∧ all_chars is_zero_char z = true
       ∧ (k <= String.length (z ++ s))%nat.
Proof.
  unfold padStart. destruct (Nat.leb_spec k (String.length s)) as [Hle | Hgt].
  - exists "". repeat split. simpl. exact Hle.
  - destruct (cycle_zeros (k - String.length s) "0" eq_refl) as [H1 H2].
    exists (cycle (k - String.length s) "0" "0"). repeat split; [exact H1 |].
    rewrite length_append, H2. lia.
Qed.

Lemma zero_is_digit (c : ascii) : is_zero_char c = true → is_digit c = true.
Proof.
  unfold is_zero_char. intros H. apply Ascii.eqb_eq in H. subst c. reflexivity.
Qed.

Lemma read_digits_zeros (z : string) : ∀ rest,
  all_chars is_zero_char z = true → read_digits (z ++ rest) 0 = read_digits rest 0.
Proof.
  induction z as [| c z IH]; intros rest H; simpl; [reflexivity |].
  simpl in H. apply andb_true_iff in H as [Hc Hz].
  rewrite (zero_is_digit c Hc).
  unfold is_zero_char in Hc. apply Ascii.eqb_eq in Hc. subst c.
  change (10 * 0 + Z_of_digit "0") with 0. apply IH. exact Hz.
Qed.

(** A number printed and padded with zeros: digits that read back as it. *)
Lemma padded_decimal_spec (k : nat) (n : Z) :
  0 <= n →
  all_digits (padStart k "0" (decimal n)) = true
  ∧ padStart k "0" (decimal n) ≠ ""
  ∧ (k <= String.length (padStart k "0" (decimal n)))%nat
  ∧ ∀ rest, read_digits (padStart k "0" (decimal n) ++ rest) 0 = read_digits rest n.
Proof.
  intros Hn. destruct (decimal_spec n Hn) as (Hall & Hne & p & Hread).
  destruct (padStart_zeros k (decimal n)) as (z & E & Hz & Hlen).
  rewrite E. repeat split.
  - unfold all_digits in *. rewrite all_chars_append, Hall, andb_true_r.
    apply (all_chars_impl is_zero_char); [apply zero_is_digit | exact Hz].
  - destruct z; [exact Hne | discriminate].
  - exact Hlen.
  - intros rest. rewrite append_assoc, read_digits_zeros by exact Hz.
    rewrite Hread. f_equal.
Qed.

Lemma parseInt_padded (k : nat) (n : Z) :
  0 <= n → parseInt (padStart k "0" (decimal n)) = Some n.
Proof.
  intros Hn. destruct (padded_decimal_spec k n Hn) as (Hall & Hne & _ & Hread).
  specialize (Hread ""). rewrite append_empty_r in Hread. simpl in Hread.
  destruct (padStart k "0" (decimal n)) as [| c r]; [congruence |].
  unfold all_digits in Hall. simpl in Hall. apply andb_true_iff in Hall as [Hc _].
  rewrite (parseInt_digit c r Hc), Hread. reflexivity.
Qed.

(** ** Splitting *)

Lemma split_without (sep : ascii) (s : string) :
  without sep s = true → split sep s = [s].
Proof.
  induction s as [| c s IH]; simpl; [reflexivity |].
  intros H. apply andb_true_iff in H as [Hc Hs].
  apply negb_true_iff in Hc. rewrite Hc, (IH Hs). reflexivity.
Qed.

Lemma split_at (sep : ascii) (a b : string) :
  without sep a = true → split sep (a ++ String sep b) = a :: split sep b.
Proof.
  induction a as [| c a IH]; simpl.
  - intros _. rewrite Ascii.eqb_refl. reflexivity.
  - intros H. apply andb_true_iff in H as [Hc Ha].
    apply negb_true_iff in Hc. rewrite Hc, (IH Ha). reflexivity.
Qed.

Lemma digits_without (sep : ascii) (s : string) :
  is_digit sep = false → all_digits s = true → without sep s = true.
Proof.
  intros Hsep. apply all_chars_impl. intros c Hc.
  apply negb_true_iff. apply Ascii.eqb_neq. intros ->. congruence.
Qed.

(** ** The command builder *)

Section CommandBuilder.
Import FFmpegService.

Lemma maxColors_closed_form (q : Z) : maxColors q = 16 + 12 * q / 5.
Proof.
  unfold maxColors, Math_floor.
  destruct (inject_div_bounds (12 * q) 5) as [Hlo Hhi]; [lia |].
  rewrite inject_Z_mult in Hlo, Hhi.
  change (inject_Z 5) with 5%Q in *. change (inject_Z 12) with 12%Q in *.
  apply floor_unique; rewrite inject_Z_plus; change (inject_Z 16) with 16%Q;
    by_constants; lra.
Qed.

(** C1 (as amended).  For every integer quality in [1,100] the filter chain
    of the command built by [buildFFmpegCommand], its eighth argument,
    carries a palettegen filter whose max_colors is
    floor(16 + (quality/100) * 240) = 16 + floor(12 * quality / 5), a value
    between 18 and 256; quality 80 gives 208, quality 1 gives 18 and
    quality 100 gives 256. *)
Theorem palette_size_of_quality (inputFile outputFile : string) (s : ConversionSettings) :
  1 <= quality s <= 100 →
  maxColors (quality s) = Qfloor (16 + inject_Z (quality s) / 100 * 240)
  ∧ maxColors (quality s) = 16 + 12 * quality s / 5
  ∧ nth_error (buildFFmpegCommand inputFile outputFile s) 7 = Some (filterComplex s)
  ∧ filterComplex s =
      "fps=" ++ Number_toString (frameRate s) ++ "," ++
      "scale=" ++ Number_toString (width s) ++ ":" ++ Number_toString (height s) ++
      ":flags=lanczos," ++ "split[s0][s1]," ++
      "[s0]palettegen=max_colors=" ++ decimal (maxColors (quality s)) ++ "[p]," ++
      "[s1][p]paletteuse=dither=bayer:bayer_scale=5"
  ∧ 18 <= maxColors (quality s) <= 256
  ∧ maxColors 80 = 208 ∧ maxColors 1 = 18 ∧ maxColors 100 = 256.
Proof.
  intros Hq.
  assert (Hc := maxColors_closed_form (quality s)).
  assert (Hr : 18 <= maxColors (quality s) <= 256).
  { rewrite Hc.
    pose proof (Z.div_le_mono 12 (12 * quality s) 5).
    pose proof (Z.div_le_mono (12 * quality s) 1200 5).
    change (12 / 5) with 2 in *. change (1200 / 5) with 240 in *. lia. }
  repeat split; try reflexivity; try tauto; try lia.
  unfold filterComplex, join. simpl String.concat.
  replace (Number_toString (maxColors (quality s))) with (decimal (maxColors (quality s))).
  - repeat (progress (rewrite ?append_assoc; simpl)). reflexivity.
  - unfold Number_toString.
    destruct (Z.ltb_spec (maxColors (quality s)) 0); [lia | reflexivity].
Qed.

End CommandBuilder.

Section CommandBuilderAtSamples.
Import FFmpegService Samples.

Lemma palette_size_of_quality_witness :
  1 <= quality (settings_of_quality 80) <= 100
  ∧ maxColors (quality (settings_of_quality 80)) = 16 + 12 * 80 / 5.
Proof.
  split; [simpl; lia |].
  apply (palette_size_of_quality "input.mp4" "output.gif" (settings_of_quality 80)).
  simpl; lia.
Defined.

(** Quality 1 gives a palette of 18 colours, not 16. *)
Lemma quality_1_gives_18_colors :
  maxColors 1 = 18 ∧ maxColors 1 ≠ 16 ∧
  nth_error (buildFFmpegCommand "input.mp4" "output.gif" (settings_of_quality 1)) 7 =
    Some "fps=15,scale=800:450:flags=lanczos,split[s0][s1],[s0]palettegen=max_colors=18[p],[s1][p]paletteuse=dither=bayer:bayer_scale=5".
Proof. repeat split. vm_compute. discriminate. Qed.

(** Evaluated on binary64 numbers the expression gives the same palette
    size for every quality from 1 to 100. *)
Lemma maxColors_binary64 (q : Z) :
  1 <= q <= 100 → B64.maxColors q = Some (maxColors q).
Proof.
  intros Hq.
  assert (H : forallb (λ n, match B64.maxColors n with
                            | Some m => m =? maxColors n
                            | None => false
                            end) (map Z.of_nat (seq 1 100)) = true)
    by (vm_compute; reflexivity).
  rewrite forallb_forall in H.
  assert (Hin : In q (map Z.of_nat (seq 1 100))).
  { apply in_map_iff. exists (Z.to_nat q). split; [lia |]. apply in_seq. lia. }
  specialize (H q Hin). destruct (B64.maxColors q); [| discriminate].
  apply Z.eqb_eq in H. congruence.
Qed.

End CommandBuilderAtSamples.

(** ** Output dimensions *)

Section Dimensions.
Import VideoUtils.
Local Open Scope Q_scope.

Lemma round_bounds (x : Q) :
  inject_Z (Math_round x) <= x + (1 # 2) ∧ x - (1 # 2) < inject_Z (Math_round x).
Proof. unfold Math_round. destruct (floor_bounds (x + (1 # 2))). split; lra. Qed.

(** At aspect ratio 4, width 102 gives height 26 and comes back as 104. *)
Lemma width_height_width_differs_by_2 :
  calculateWidthFromHeight (calculateHeightFromWidth 102 4) 4 = 104%Z
  ∧ ¬ (Z.abs (calculateWidthFromHeight (calculateHeightFromWidth 102 4) 4 - 102) <= 1)%Z.
Proof. split; [reflexivity |]. vm_compute. intros H; apply H; reflexivity. Qed.

(** C5 (as amended).  For every integer width w in [100,1920] and every
    aspect ratio r with 0 < r <= 3,
    calculateWidthFromHeight(calculateHeightFromWidth(w, r), r) differs
    from w by at most 1. *)
Theorem width_round_trip (w : Z) (r : Q) :
  (100 <= w <= 1920)%Z → 0 < r → r <= 3 →
  (Z.abs (calculateWidthFromHeight (calculateHeightFromWidth w r) r - w) <= 1)%Z.
Proof.
  intros Hw Hr0 Hr3.
  unfold calculateHeightFromWidth, calculateWidthFromHeight.
  destruct (Qeq_bool r 0) eqn:E.
  { apply Qeq_bool_iff in E. lra. }
  set (h := Math_round (inject_Z w / r)).
  set (w' := Math_round (inject_Z h * r)).
  destruct (round_bounds (inject_Z w / r)) as [Hh1 Hh2]. fold h in Hh1, Hh2.
  destruct (round_bounds (inject_Z h * r)) as [Hw1 Hw2]. fold w' in Hw1, Hw2.
  assert (Hq : inject_Z w / r * r == inject_Z w) by (field; lra).
  set (q := inject_Z w / r) in *. clearbody w' h q.
  assert (A1 : inject_Z h * r <= inject_Z w + r * (1 # 2)) by nra.
  assert (A2 : inject_Z w - r * (1 # 2) < inject_Z h * r) by nra.
  assert (B1 : inject_Z w < inject_Z (w' + 2)).
  { rewrite inject_Z_plus. change (inject_Z 2) with 2. lra. }
  assert (B2 : inject_Z w' <= inject_Z (w + 2)).
  { rewrite inject_Z_plus. change (inject_Z 2) with 2. lra. }
  rewrite <- Zlt_Qlt in B1. rewrite <- Zle_Qle in B2.
  destruct (Z.eq_dec w' (w + 2)%Z) as [Heq | Hne]; [| lia].
  (* w' = w + 2 forces r = 3 and 6 h = 2 w + 3, which no integers satisfy *)
  exfalso.
  rewrite Heq, inject_Z_plus in Hw1. change (inject_Z 2) with 2 in Hw1.
  assert (C : inject_Z (2 * w + 3) == inject_Z (2 * h) * r).
  { rewrite inject_Z_plus, !inject_Z_mult.
    change (inject_Z 2) with 2. change (inject_Z 3) with 3. lra. }
  assert (D : r == 3) by lra.
  rewrite D in C.
  assert (C' : inject_Z (2 * w + 3) == inject_Z (2 * h * 3)).
  { rewrite C, (inject_Z_mult (2 * h) 3). reflexivity. }
  apply (proj1 (inject_Z_injective _ _)) in C'. lia.
Qed.

Lemma width_round_trip_witness :
  (Z.abs (calculateWidthFromHeight (calculateHeightFromWidth 801 (16 # 9)) (16 # 9) - 801) <= 1)%Z.
Proof.
  apply (width_round_trip 801 (16 # 9)); [lia | reflexivity | discriminate].
Defined.

End Dimensions.

(** ** Settings validation *)

Section Validation.
Import VideoUtils Samples.

(** In-range settings with endTime before startTime are accepted. *)
Lemma validateSettings_accepts_inverted_trim :
  (endTime inverted_trim <= startTime inverted_trim)%Q ∧
  validateSettings inverted_trim = {| isValid := true; error := None |}.
Proof. split; [vm_compute; discriminate | reflexivity]. Qed.

(** C6 (as amended).  [validateSettings] checks quality, frame rate, width
    and height only: settings whose four checked fields are in range are
    valid whatever their trim window, and no result depends on startTime
    or endTime. *)
Theorem validateSettings_ignores_trim (s : ConversionSettings) (a b : Q) :
  1 <= quality s <= 100 →
  In (frameRate s) [10; 15; 20; 24; 30] →
  100 <= width s <= 1920 →
  100 <= height s <= 1920 →
  validateSettings (with_trim s a b) = {| isValid := true; error := None |}
  ∧ ∀ s' : ConversionSettings, validateSettings (with_trim s' a b) = validateSettings s'.
Proof.
  intros Hq Hf Hw Hh. split; [| reflexivity].
  unfold validateSettings, with_trim; simpl.
  replace (quality s <? 1) with false by (symmetry; apply Z.ltb_ge; lia).
  replace (100 <? quality s) with false by (symmetry; apply Z.ltb_ge; lia).
  replace (width s <? 100) with false by (symmetry; apply Z.ltb_ge; lia).
  replace (1920 <? width s) with false by (symmetry; apply Z.ltb_ge; lia).
  replace (height s <? 100) with false by (symmetry; apply Z.ltb_ge; lia).
  replace (1920 <? height s) with false by (symmetry; apply Z.ltb_ge; lia).
  simpl in Hf.
  destruct Hf as [<- | [<- | [<- | [<- | [<- | []]]]]]; reflexivity.
Qed.

Lemma validateSettings_ignores_trim_witness :
  validateSettings (with_trim (settings_of_quality 80) 5 2)
  = {| isValid := true; error := None |}.
Proof.
  refine (proj1 (validateSettings_ignores_trim (settings_of_quality 80) 5 2 _ _ _ _));
    simpl; [lia | tauto | lia | lia].
Defined.

End Validation.

(** ** Marking the trim window *)

Section Marking.
Import Timeline.
Local Open Scope Q_scope.

Lemma max_min_bounds (lo hi c : Q) :
  lo <= hi → lo <= Qmax lo (Qmin c hi) ∧ Qmax lo (Qmin c hi) <= hi.
Proof.
  intros H. split; [apply Q.le_max_l |].
  apply Q.max_lub; [exact H | apply Q.le_min_r].
Qed.

Lemma min_max_bounds (lo hi c : Q) :
  lo <= hi → lo <= Qmin hi (Qmax c lo) ∧ Qmin hi (Qmax c lo) <= hi.
Proof.
  intros H. split; [| apply Q.le_min_l].
  apply Q.min_glb; [exact H | apply Q.le_max_r].
Qed.



End Marking.

(** ** Timecodes *)

Section Timecodes.
Import Timeline.

(** A timecode as [formatTime] lays it out. *)
Lemma parseTime_layout (mins secs cs : Z) :
  0 <= mins → 0 <= secs → 0 <= cs →
  parseTime (decimal mins ++ ":" ++ padStart 2 "0" (decimal secs) ++ "." ++
             padStart 2 "0" (decimal cs))
  = Some (Num (inject_Z mins * 60 + inject_Z secs + inject_Z cs / 100)).
Proof.
  intros Hm Hs Hc.
  destruct (decimal_spec mins Hm) as (Mall & Mne & _).
  destruct (padded_decimal_spec 2 secs Hs) as (Sall & Sne & _ & _).
  destruct (padded_decimal_spec 2 cs Hc) as (Call & Cne & _ & _).
  pose proof (parseInt_decimal mins Hm) as PM.
  pose proof (parseInt_padded 2 secs Hs) as PS.
  pose proof (parseInt_padded 2 cs Hc) as PC.
  set (M := decimal mins) in *.
  set (S := padStart 2 "0" (decimal secs)) in *.
  set (C := padStart 2 "0" (decimal cs)) in *.
  assert (Hcolon : is_digit ":" = false) by reflexivity.
  assert (Hpoint : is_digit "." = false) by reflexivity.
  unfold parseTime.
  change (M ++ ":" ++ S ++ "." ++ C) with (M ++ String ":" (S ++ String "." C)).
  rewrite split_at by (apply digits_without; assumption).
  rewrite split_without.
  2:{ unfold without. rewrite all_chars_append. apply andb_true_iff. split.
      - apply digits_without; assumption.
      - simpl. apply digits_without; assumption. }
  rewrite split_at by (apply digits_without; assumption).
  rewrite split_without by (apply digits_without; assumption).
  unfold head_or_empty, fraction. simpl nth. simpl nth_error.
  rewrite PM, PS.
  destruct C as [| c r]; [congruence |].
  rewrite PC. reflexivity.
Qed.

Local Open Scope Q_scope.

(** The three fields [formatTime] prints for a non-negative time, and how
    close they stay to it. *)
Lemma formatTime_fields (x : Q) :
  0 <= x →
  let mins := Math_floor (x / 60) in
  let secs := Math_floor (rem x 60) in
  let cs := Math_floor (rem x 1 * 100) in
  (0 <= mins)%Z ∧ (0 <= secs)%Z ∧ (0 <= cs)%Z
  ∧ inject_Z mins * 60 + inject_Z secs + inject_Z cs / 100 <= x
  ∧ x < inject_Z mins * 60 + inject_Z secs + inject_Z cs / 100 + (1 # 100).
Proof.
  intros Hx. unfold Math_floor, rem. cbv zeta.
  assert (H60 : 0 <= x / 60) by (by_constants; lra).
  assert (H1 : 0 <= x / 1) by (by_constants; lra).
  rewrite (trunc_floor _ H60), (trunc_floor _ H1).
  destruct (floor_bounds (x / 60)) as [M1 M2].
  destruct (floor_bounds (x / 1)) as [T1 T2].
  set (m := Qfloor (x / 60)) in *. set (t := Qfloor (x / 1)) in *.
  destruct (floor_bounds (x - 60 * inject_Z m)) as [S1 S2].
  set (s := Qfloor (x - 60 * inject_Z m)) in *.
  destruct (floor_bounds ((x - 1 * inject_Z t) * 100)) as [C1 C2].
  set (c := Qfloor ((x - 1 * inject_Z t) * 100)) in *.
  by_constants.
  assert (Ht : t = (s + 60 * m)%Z).
  { apply floor_unique; by_constants;
      rewrite inject_Z_plus, inject_Z_mult; change (inject_Z 60) with 60; lra. }
  assert (Ht' : inject_Z t == inject_Z s + 60 * inject_Z m).
  { rewrite Ht, inject_Z_plus, inject_Z_mult. reflexivity. }
  assert (Hm : (0 <= m)%Z) by (apply floor_nonneg; by_constants; lra).
  assert (Hs : (0 <= s)%Z) by (apply floor_nonneg; lra).
  assert (Hc : (0 <= c)%Z) by (apply floor_nonneg; lra).
  repeat split; try assumption; lra.
Qed.



End Timecodes.

(** ** Fixed-point notation *)

Lemma substring_whole (s : string) : substring 0 (String.length s) s = s.
Proof.
  induction s as [| c s IH]; simpl; [reflexivity |]. f_equal. exact IH.
Qed.

(** A string cut at position [j]. *)
Lemma substring_cut (s : string) : ∀ j : nat,
  (j <= String.length s)%nat →
  s = substring 0 j s ++ substring j (String.length s - j) s
  ∧ String.length (substring 0 j s) = j
  ∧ String.length (substring j (String.length s - j) s) = (String.length s - j)%nat.
Proof.
  induction s as [| c s IH]; intros j Hj.
  - simpl in Hj. assert (j = 0%nat) by lia. subst j. repeat split.
  - destruct j as [| j].
    + rewrite Nat.sub_0_r, substring_whole. repeat split.
    + simpl in Hj. destruct (IH j) as (E & L1 & L2); [lia |].
      simpl. repeat split; [f_equal; exact E | f_equal; exact L1 | exact L2].
Qed.

Lemma read_digits_append (a : string) : ∀ rest acc,
  all_digits a = true → read_digits (a ++ rest) acc = read_digits rest (read_digits a acc).
Proof.
  induction a as [| c a IH]; intros rest acc H; simpl; [reflexivity |].
  unfold all_digits in H. simpl in H. apply andb_true_iff in H as [Hc Ha].
  rewrite Hc. apply IH. exact Ha.
Qed.

Lemma read_digits_shift (b : string) : ∀ v,
  all_digits b = true →
  read_digits b v = v * 10 ^ Z.of_nat (String.length b) + read_digits b 0.
Proof.
  induction b as [| c b IH]; intros v H.
  - simpl. lia.
  - unfold all_digits in H. simpl in H. apply andb_true_iff in H as [Hc Hb].
    cbn [read_digits String.length]. rewrite Hc.
    rewrite (IH (10 * v + Z_of_digit c) Hb), (IH (10 * 0 + Z_of_digit c) Hb).
    rewrite Nat2Z.inj_succ, Z.pow_succ_r by lia. ring.
Qed.

(** [x.toFixed(3)]: a sign when x is negative, digits, a point and three
    digits, which denote the multiple of 0.001 nearest to |x|. *)
Lemma toFixed_3_spec (x : Q) :
  ∃ a b : string,
    toFixed 3 x = (if Qle_bool 0 x then "" else "-") ++ a ++ "." ++ b
    ∧ all_digits a = true ∧ a ≠ ""
    ∧ all_digits b = true ∧ String.length b = 3%nat
    ∧ (Qabs (inject_Z (read_digits a 0) + inject_Z (read_digits b 0) / 1000 - Qabs x)
       <= 1 # 2000)%Q.
Proof.
  unfold toFixed.
  change (inject_Z (10 ^ Z.of_nat 3)) with 1000%Q.
  set (n := Qfloor (Qabs x * 1000 + (1 # 2))).
  assert (Hn : 0 <= n).
  { apply floor_nonneg. pose proof (Qabs_nonneg x). lra. }
  destruct (padded_decimal_spec 4 n Hn) as (Hall & Hne & Hlen & Hread).
  set (m := padStart 4 "0" (decimal n)) in *.
  destruct (substring_cut m (String.length m - 3)) as (E & L1 & L2); [lia |].
  replace (String.length m - (String.length m - 3))%nat with 3%nat in E, L2 by lia.
  set (a := substring 0 (String.length m - 3) m) in *.
  set (b := substring (String.length m - 3) 3 m) in *.
  assert (Hab : all_digits a = true ∧ all_digits b = true).
  { unfold all_digits in *. rewrite E, all_chars_append in Hall.
    apply andb_true_iff in Hall. exact Hall. }
  destruct Hab as [Ha Hb].
  assert (Hval : read_digits a 0 * 1000 + read_digits b 0 = n).
  { specialize (Hread ""). rewrite append_empty_r in Hread. simpl in Hread.
    rewrite E, (read_digits_append a b 0 Ha), (read_digits_shift b _ Hb), L2 in Hread.
    exact Hread. }
  exists a, b. repeat split; try assumption.
  - destruct (Qle_bool 0 x); reflexivity.
  - intros ->. simpl in L1. lia.
  - destruct (floor_bounds (Qabs x * 1000 + (1 # 2))) as [F1 F2]. fold n in F1, F2.
    rewrite <- Hval, inject_Z_plus, inject_Z_mult in F1, F2.
    change (inject_Z 1000) with 1000%Q in *.
    unfold Qdiv. change (/ 1000)%Q with (1 # 1000)%Q.
    apply Qabs_Qle_condition. split; lra.
Qed.

Section CommandShape.
Import FFmpegService.

End CommandShape.

(** ** Progress *)

Section Progress.
Import FFmpegService.

Lemma is_digit_value (c : ascii) : is_digit c = true → 0 <= Z_of_digit c.
Proof.
  unfold is_digit, Z_of_digit. intros H. apply andb_true_iff in H as [H _].
  apply N.leb_le in H. lia.
Qed.

Lemma read_digits_nonneg (s : string) : ∀ acc, 0 <= acc → 0 <= read_digits s acc.
Proof.
  induction s as [| c s IH]; intros acc H; simpl; [exact H |].
  destruct (is_digit c) eqn:E; [| exact H].
  apply IH. pose proof (is_digit_value c E). lia.
Qed.

Lemma hms_seconds_nonneg (g : string * string * string) : 0 <= hms_seconds g.
Proof.
  destruct g as [[h m] s]. unfold hms_seconds.
  pose proof (read_digits_nonneg h 0). pose proof (read_digits_nonneg m 0).
  pose proof (read_digits_nonneg s 0). lia.
Qed.

Lemma percent_range (total position : Z) :
  0 < total → 0 <= position → (0 <= percent total position ∧ percent total position <= 100)%Q.
Proof.
  intros Ht Hp. unfold percent, Math_min. split; [| apply Q.le_min_r].
  apply Q.min_glb; [| discriminate].
  apply Qmult_le_0_compat; [| discriminate].
  apply Qmult_le_0_compat.
  - change 0%Q with (inject_Z 0). rewrite <- Zle_Qle. exact Hp.
  - apply Qinv_le_0_compat. change 0%Q with (inject_Z 0). rewrite <- Zle_Qle. lia.
Qed.

Lemma percent_monotone (total p1 p2 : Z) :
  0 < total → p1 <= p2 → (percent total p1 <= percent total p2)%Q.
Proof.
  intros Ht Hp. unfold percent, Math_min. apply Q.min_le_compat_r.
  apply Qmult_le_compat_r; [| discriminate].
  apply Qmult_le_compat_r.
  - rewrite <- Zle_Qle. exact Hp.
  - apply Qinv_le_0_compat. change 0%Q with (inject_Z 0). rewrite <- Zle_Qle. lia.
Qed.

(** What one log event does to the tracker and to [onProgress]. *)
Lemma on_log_cases (tr : tracker) (now : Z) (message : string) :
  let total :=
    match match_hms "Duration: " message with
    | Some g => hms_seconds g
    | None => videoDuration tr
    end in
  videoDuration (fst (on_log tr now message)) = total
  ∧ (snd (on_log tr now message) = None
     ∨ ∃ g, match_hms "time=" message = Some g
            ∧ 0 < total
            ∧ snd (on_log tr now message) = Some (percent total (hms_seconds g))).
Proof.
  unfold on_log.
  destruct (match_hms "Duration: " message) as [gd |];
    destruct (match_hms "time=" message) as [gt |]; cbn [videoDuration lastProgressUpdate].
  all: try (split; [reflexivity | left; reflexivity]).
  all: match goal with
       | |- context [if ?b then _ else _] => destruct b eqn:E
       end; cbn [fst snd videoDuration];
    (split; [reflexivity |]); [right | left; reflexivity].
  all: apply andb_true_iff in E as [E _]; apply Z.ltb_lt in E;
    exists gt; repeat split; exact E.
Qed.

(** Every value delivered while listening lies in [0, 100]. *)
Lemma listen_range (events : list (Z * string)) : ∀ tr,
  Forall (λ p, 0 <= p ∧ p <= 100)%Q (listen tr events).
Proof.
  induction events as [| [now message] rest IH]; intros tr; simpl; [constructor |].
  destruct (on_log_cases tr now message) as [_ Hc]. cbv zeta in Hc.
  destruct (on_log tr now message) as [tr' called]. simpl in Hc.
  destruct Hc as [-> | (g & _ & Ht & ->)]; [apply IH |].
  constructor; [| apply IH].
  apply percent_range; [exact Ht | apply hms_seconds_nonneg].
Qed.

Lemma listen_steady (total : Z) (events : list (Z * string)) : ∀ tr lo,
  videoDuration tr = 0 ∨ videoDuration tr = total →
  Forall (eq total) (reported_durations events) →
  StronglySorted Z.le (reported_positions events) →
  Forall (Z.le lo) (reported_positions events) →
  StronglySorted Qle (listen tr events)
  ∧ (0 < total → Forall (Qle (percent total lo)) (listen tr events)).
Proof.
  induction events as [| [now message] rest IH]; intros tr lo Htr Hd Hs Hlo;
    [split; constructor |].
  cbn [listen].
  destruct (on_log_cases tr now message) as [Hv Hc]. cbv zeta in Hv, Hc.
  unfold reported_durations, reported_positions in Hd, Hs, Hlo.
  cbn [omap list_omap snd] in Hd, Hs, Hlo.
  fold (reported_durations rest) in Hd. fold (reported_positions rest) in Hs, Hlo.
  destruct (on_log tr now message) as [tr' called]. cbn [fst snd] in Hv, Hc.
  assert (Htr' : videoDuration tr' = 0 ∨ videoDuration tr' = total).
  { rewrite Hv. destruct (match_hms "Duration: " message) as [gd |]; [| exact Htr].
    right. cbn in Hd. inversion Hd; subst. reflexivity. }
  assert (Hd' : Forall (eq total) (reported_durations rest)).
  { destruct (match_hms "Duration: " message); cbn in Hd; [inversion Hd; assumption | exact Hd]. }
  rewrite <- Hv in Hc.
  destruct Hc as [-> | (g & Hg & Ht & ->)].
  - (* nothing delivered for this event *)
    apply IH; try assumption.
    + destruct (match_hms "time=" message); cbn in Hs;
        [apply StronglySorted_inv in Hs; tauto | exact Hs].
    + destruct (match_hms "time=" message); cbn in Hlo;
        [inversion Hlo; assumption | exact Hlo].
  - (* the position of this event is delivered *)
    rewrite Hg in Hs, Hlo. cbn in Hs, Hlo.
    apply StronglySorted_inv in Hs as [Hs Hall].
    inversion Hlo as [| ? ? Hlo1 Hlo2]; subst.
    assert (Et : videoDuration tr' = total) by (destruct Htr'; [lia | assumption]).
    rewrite Et in Ht |- *.
    destruct (IH tr' (hms_seconds g) Htr' Hd' Hs Hall) as [IHs IHb].
    specialize (IHb Ht).
    split.
    + constructor; assumption.
    + intros _. constructor.
      * apply percent_monotone; assumption.
      * eapply Forall_impl; [exact IHb |]. intros q Hq. cbv beta in Hq.
        eapply Qle_trans; [apply percent_monotone; eassumption | exact Hq].
Qed.

Lemma sorted_nondecreasing (l : list Q) :
  StronglySorted Qle l → nondecreasing l = true.
Proof.
  induction l as [| x [| y l] IH]; intros H; try reflexivity.
  apply StronglySorted_inv in H as [Hs Hall].
  cbn [nondecreasing]. apply andb_true_iff. split; [| apply IH; exact Hs].
  apply Qle_bool_iff. inversion Hall; assumption.
Qed.

Lemma sorted_snoc (l : list Q) (top : Q) :
  StronglySorted Qle l → Forall (λ p, p <= top)%Q l → StronglySorted Qle (l ++ [top])%list.
Proof.
  induction l as [| x l IH]; intros Hs Hb; simpl.
  - constructor; constructor.
  - apply StronglySorted_inv in Hs as [Hs Hall]. inversion Hb; subst.
    constructor; [apply IH; assumption |].
    apply Forall_app. split; [exact Hall | constructor; [assumption | constructor]].
Qed.

(** What a call delivers: nothing if it fails before the command runs,
    otherwise what the listener forwards during the run, followed by 100
    exactly when the call succeeds. *)
Lemma convert_body_delivered (E : Engine) (videoFile : File)
    (settings : ConversionSettings) (fs : vfs) :
  let res := convert_body E videoFile settings {| files := fs; delivered := [] |} in
  (delivered (fst res) = [] ∧ ∃ e, snd res = Throw e)
  ∨ ∃ fs' command,
      delivered (fst res) =
        (listen tracker_init (exec_log (exec E fs' command)) ++
         match snd res with Ok _ => [100%Q] | Throw _ => [] end)%list.
Proof.
  cbv zeta.
  unfold convert_body, try_catch, bind, lift, writeFile, run_exec, readFile,
    deleteFile, onProgress, ret.
  cbn [files delivered].
  destruct (fetchFile E videoFile) as [data | e]; cbn [fst snd files delivered];
    [| left; split; [reflexivity | eexists; reflexivity]].
  right.
  exists (<["input.mp4" := data]> fs),
         (buildFFmpegCommand "input.mp4" "output.gif" settings).
  set (run := exec E _ _).
  destruct (exec_end run) as [code | e]; cbn [fst snd files delivered];
    [| rewrite app_nil_r; reflexivity].
  destruct (exec_files run !! "output.gif") as [out |]; cbn [fst snd files delivered];
    [| rewrite app_nil_r; reflexivity].
  destruct (exec_files run !! "input.mp4") as [inp |]; cbn [fst snd files delivered];
    [| rewrite app_nil_r; reflexivity].
  destruct (delete "input.mp4" (exec_files run) !! "output.gif") as [out' |];
    cbn [fst snd files delivered]; [reflexivity | rewrite app_nil_r; reflexivity].
Qed.

Lemma convertToGif_delivered (E : Engine) (svc : service) (videoFile : File)
    (settings : ConversionSettings) :
  (delivered_by E svc videoFile settings = []
   ∧ ∃ e, result_of E svc videoFile settings = Throw e)
  ∨ ∃ fs' command,
      delivered_by E svc videoFile settings =
        (listen tracker_init (exec_log (exec E fs' command)) ++
         match result_of E svc videoFile settings with
         | Ok _ => [100%Q]
         | Throw _ => []
         end)%list.
Proof.
  unfold delivered_by, result_of, convertToGif.
  destruct (ffmpeg svc) as [fs |]; [| left; split; [reflexivity | eexists; reflexivity]].
  destruct (loaded svc); [| left; split; [reflexivity | eexists; reflexivity]].
  pose proof (convert_body_delivered E videoFile settings fs) as H. cbv zeta in H.
  destruct (convert_body E videoFile settings _) as [m r]. exact H.
Qed.

(** C7 (as amended).  During one call of [convertToGif] every value passed
    to [onProgress] lies in [0,100]; when the call succeeds the last value
    is exactly 100; and the values never decrease provided the engine's log
    reports a single total duration and positions that never go back (the
    service forwards what the log says and does not order it). *)
Theorem progress_values (E : Engine) (svc : service) (videoFile : File)
    (settings : ConversionSettings) :
  let values := delivered_by E svc videoFile settings in
  Forall (λ p, 0 <= p ∧ p <= 100)%Q values
  ∧ (∀ blob, result_of E svc videoFile settings = Ok blob →
       ∃ earlier, values = (earlier ++ [100%Q])%list)
  ∧ ((∀ fs command, steady (exec_log (exec E fs command))) →
       nondecreasing values = true).
Proof.
  cbv zeta.
  destruct (convertToGif_delivered E svc videoFile settings)
    as [[-> [e He]] | (fs' & command & ->)].
  - split; [constructor | split; [| reflexivity]].
    intros blob Hb. congruence.
  - pose proof (listen_range (exec_log (exec E fs' command)) tracker_init) as Hr.
    split; [| split].
    + apply Forall_app. split; [exact Hr |].
      destruct (result_of _ _ _ _); constructor; [split; discriminate | constructor].
    + intros blob ->. eexists. reflexivity.
    + intros Hsteady. destruct (Hsteady fs' command) as [[total Hd] Hs].
      apply sorted_nondecreasing.
      assert (Hlo : ∃ lo, Forall (Z.le lo) (reported_positions (exec_log (exec E fs' command)))).
      { clear. induction (reported_positions _) as [| x l [lo IH]].
        - exists 0. constructor.
        - exists (Z.min x lo). constructor; [lia |].
          eapply Forall_impl; [exact IH |]. intros; simpl in *; lia. }
      destruct Hlo as [lo Hlo].
      destruct (listen_steady total _ tracker_init lo (or_introl eq_refl) Hd Hs Hlo) as [Hsorted _].
      destruct (result_of _ _ _ _).
      * apply sorted_snoc; [exact Hsorted |].
        eapply Forall_impl; [exact Hr |]. intros p [_ Hp]. exact Hp.
      * rewrite app_nil_r. exact Hsorted.
Qed.
Lemma progress_values_witness :
  nondecreasing
    (delivered_by Samples.forward_engine Samples.ready_service Samples.clip
       (Samples.settings_of_quality 80)) = true.
Proof.
  apply (progress_values Samples.forward_engine Samples.ready_service Samples.clip
           (Samples.settings_of_quality 80)).
  intros fs command. split.
  - exists 10. repeat constructor.
  - repeat constructor; vm_compute; discriminate.
Defined.

(** An engine whose log reports 5 seconds and then 3 seconds of 10: the
    call succeeds and delivers 50, 30, 100. *)
Lemma progress_goes_back :
  let values := delivered_by Samples.backwards_engine Samples.ready_service
                  Samples.clip (Samples.settings_of_quality 80) in
  (∃ blob, result_of Samples.backwards_engine Samples.ready_service Samples.clip
             (Samples.settings_of_quality 80) = Ok blob)
  ∧ Forall2 Qeq values [50; 30; 100]%Q
  ∧ nondecreasing values = false.
Proof.
  split; [eexists; vm_compute; reflexivity |].
  split; [| vm_compute; reflexivity].
  repeat constructor.
Qed.

End Progress.

(** ** Staged files *)

Section Storage.
Import FFmpegService.

(** The storage a call leaves behind, once the input is staged: the
    engine's files without input and output when the call succeeds, the
    engine's files as they are when it fails. *)
Lemma convert_body_storage (E : Engine) (videoFile : File)
    (settings : ConversionSettings) (fs : vfs) (seen : list Q) (data : list byte) :
  fetchFile E videoFile = Ok data →
  let run := exec E (<["input.mp4" := data]> fs)
               (buildFFmpegCommand "input.mp4" "output.gif" settings) in
  let res := convert_body E videoFile settings {| files := fs; delivered := seen |} in
  match snd res with
  | Ok _ => files (fst res) = delete "output.gif" (delete "input.mp4" (exec_files run))
  | Throw _ => files (fst res) = exec_files run
  end.
Proof.
  intros Hfetch. cbv zeta.
  unfold convert_body, try_catch, bind, lift, writeFile, run_exec, readFile,
    deleteFile, onProgress, ret.
  cbn [files delivered]. rewrite Hfetch. cbn [fst snd files delivered].
  set (run := exec E _ _).
  destruct (exec_end run) as [code | e]; cbn [fst snd files delivered]; [| reflexivity].
  destruct (exec_files run !! "output.gif") as [out |] eqn:Hout;
    cbn [fst snd files delivered]; [| reflexivity].
  destruct (exec_files run !! "input.mp4") as [inp |];
    cbn [fst snd files delivered]; [| reflexivity].
  rewrite lookup_delete_ne by discriminate. rewrite Hout.
  cbn [fst snd files delivered]. reflexivity.
Qed.

(** On the success path both staged files are gone. *)
Lemma convertToGif_success_cleans (E : Engine) (svc : service) (videoFile : File)
    (settings : ConversionSettings) (blob : Blob) :
  result_of E svc videoFile settings = Ok blob →
  ∃ fs, storage_after E svc videoFile settings = Some fs
        ∧ fs !! "input.mp4" = None ∧ fs !! "output.gif" = None.
Proof.
  unfold result_of, storage_after, convertToGif.
  destruct (ffmpeg svc) as [fs0 |]; [| discriminate].
  destruct (loaded svc); [| discriminate].
  destruct (fetchFile E videoFile) as [data | e] eqn:Hfetch.
  - pose proof (convert_body_storage E videoFile settings fs0 [] data Hfetch) as H.
    cbv zeta in H.
    destruct (convert_body E videoFile settings _) as [m r]. cbn [fst snd] in *.
    intros ->. cbn [ffmpeg]. exists (files m). split; [reflexivity |].
    rewrite H. split.
    + rewrite lookup_delete_ne by discriminate. apply lookup_delete_eq.
    + apply lookup_delete_eq.
  - unfold convert_body, try_catch, bind, lift. cbn [files delivered].
    rewrite Hfetch. cbn [fst snd]. discriminate.
Qed.

(** On a failure after staging nothing is removed: the storage is what the
    engine left, with the staged input if the engine kept it. *)
Lemma convertToGif_failure_cleans_nothing (E : Engine) (svc : service)
    (videoFile : File) (settings : ConversionSettings)
    (fs0 : vfs) (data : list byte) (e : thrown) :
  ffmpeg svc = Some fs0 → loaded svc = true →
  fetchFile E videoFile = Ok data →
  result_of E svc videoFile settings = Throw e →
  storage_after E svc videoFile settings =
    Some (exec_files (exec E (<["input.mp4" := data]> fs0)
                        (buildFFmpegCommand "input.mp4" "output.gif" settings))).
Proof.
  intros Hfs Hl Hfetch.
  unfold result_of, storage_after, convertToGif. rewrite Hfs, Hl.
  pose proof (convert_body_storage E videoFile settings fs0 [] data Hfetch) as H.
  cbv zeta in H.
  destruct (convert_body E videoFile settings _) as [m r]. cbn [fst snd] in *.
  intros ->. cbn [ffmpeg]. rewrite H. reflexivity.
Qed.

(** C3, at a failing conversion.  The engine ends with exit code 1 and
    writes no output: reading the output throws, the call rejects, and
    the staged input is still in the engine's storage. *)
Theorem failed_conversion_keeps_staged_input :
  (∃ e, result_of Samples.failing_engine Samples.ready_service Samples.clip
          (Samples.settings_of_quality 80) = Throw e)
  ∧ (storage_after Samples.failing_engine Samples.ready_service Samples.clip
       (Samples.settings_of_quality 80) ≫= (λ fs, fs !! "input.mp4"))
    = Some (file_bytes Samples.clip).
Proof.
  split; [eexists |]; vm_compute; reflexivity.
Qed.
End Storage.

(** ** The conversion handler *)

Section Orchestrator.
Import FFmpegService Converter.

(** An initialization started from rest that succeeds does so before the
    load timer fires, and leaves the service loaded. *)
Lemma initialize_fulfilled (svc : service) (sc : load_scenario) (t : Z) (v : unit) :
  loaded svc = false → initPromise svc = false →
  snd (initialize svc sc) = Fulfilled t v →
  t < LOAD_TIMEOUT ∧ isLoaded (fst (initialize svc sc)) = true.
Proof.
  intros Hl Hp. unfold initialize. rewrite Hl, Hp.
  destruct (downloads sc) as [tf [] | tf e |]; [| discriminate | discriminate].
  destruct (Z.leb_spec LOAD_TIMEOUT tf); [discriminate |].
  destruct (load sc) as [tl [] | tl e |]; [| | discriminate].
  - destruct (Z.ltb_spec (tf + tl) LOAD_TIMEOUT); [| discriminate].
    cbn [fst snd]. intros [= <-]. split; [assumption | reflexivity].
  - destruct (Z.ltb_spec (tf + tl) LOAD_TIMEOUT); discriminate.
Qed.

(** When the handler gets past the lazy load, it does so within the load
    timeout, with the service loaded and neither result nor error
    dispatched so far. *)
Lemma lazy_load_fulfilled (state : ConverterState) (env : environment) (t1 : Z) :
  at_rest (engine env) →
  (ffmpegLoaded state = true → isLoaded (engine env) = true) →
  snd (lazy_load state env) = Fulfilled t1 tt →
  t1 < LOAD_TIMEOUT
  ∧ isLoaded (snd (fst (lazy_load state env))) = true
  ∧ Forall (λ te, is_result (snd te) = false) (fst (fst (lazy_load state env))).
Proof.
  intros Hrest Hflag. unfold lazy_load.
  destruct (ffmpegLoaded state) eqn:Hf.
  - cbn [fst snd]. intros [= <-]. split; [reflexivity | split; [auto | constructor]].
  - unfold initializeFFmpeg.
    destruct (isLoaded (engine env)) eqn:Hl.
    + cbn [fst snd]. intros [= <-].
      split; [reflexivity | split; [assumption | repeat constructor]].
    + destruct Hrest as [Hrest | [Hl0 Hp0]]; [congruence |].
      pose proof (initialize_fulfilled (engine env) (loading_scenario env)) as Hi.
      destruct (initialize (engine env) (loading_scenario env)) as [svc' r].
      cbn [fst snd] in Hi.
      destruct r as [t [] | t e |]; cbn [fst snd]; [| discriminate | discriminate].
      rename t into t0.
      intros [= <-]. destruct (Hi t0 tt Hl0 Hp0 eq_refl) as [Ht Hsvc].
      split; [assumption | split; [assumption | repeat constructor]].
Qed.

Lemma state_after_app (state : ConverterState) (l1 l2 : list (Z * event)) :
  state_after state (l1 ++ l2)%list = state_after (state_after state l1) l2.
Proof. unfold state_after, dispatched. rewrite omap_app. apply fold_left_app. Qed.

(** Progress dispatches change neither the status nor the error. *)
Lemma progress_keeps_status (l : list (Z * event)) : ∀ state,
  Forall (λ te, is_progress (snd te) = true) l →
  conversionStatus (state_after state l) = conversionStatus state
  ∧ error (state_after state l) = error state.
Proof.
  induction l as [| [t e] l IH]; intros state H; [split; reflexivity |].
  inversion H as [| ? ? He Hl]; subst. cbn [snd] in He.
  destruct e as [[] | | | |]; try discriminate He.
  change (state_after state ((t, Dispatch (SET_PROGRESS payload)) :: l))
    with (state_after (converterReducer state (SET_PROGRESS payload)) l).
  destruct (IH (converterReducer state (SET_PROGRESS payload)) Hl) as [-> ->].
  split; reflexivity.
Qed.

Lemma progress_between_events (t1 lo hi : Z) (calls : list (Z * Q)) :
  Forall (λ te, is_progress (snd te) = true) (progress_between t1 lo hi calls).
Proof.
  unfold progress_between. apply Forall_forall. intros te Hin.
  apply list_elem_of_In, in_map_iff in Hin as (c & <- & _). reflexivity.
Qed.

Lemma progress_from_events (t1 lo : Z) (calls : list (Z * Q)) :
  Forall (λ te, is_progress (snd te) = true) (progress_from t1 lo calls).
Proof.
  unfold progress_from. apply Forall_forall. intros te Hin.
  apply list_elem_of_In, in_map_iff in Hin as (c & <- & _). reflexivity.
Qed.

Lemma progress_not_result (e : event) : is_progress e = true → is_result e = false.
Proof. destruct e as [[] | | | |]; simpl; congruence. Qed.

(** The [catch] block on the timer's error stores the timeout error. *)
Lemma catch_timeout (t : Z) :
  catch_block t (Error timeout_message) =
    [(t, ClearTimeout); (t, Dispatch (SET_ERROR timeout_error))].
Proof. reflexivity. Qed.

Lemma error_then_progress (state : ConverterState)
    (l1 l2 l3 l4 later : list (Z * event)) (t : Z) (err : ErrorState) :
  Forall (λ te, is_progress (snd te) = true) later →
  let final :=
    state_after state
      (l1 ++ l2 ++ l3 ++ l4 ++
       [(t, ClearTimeout); (t, Dispatch (SET_ERROR err))] ++ later)%list in
  conversionStatus final = Status.error ∧ error final = Some err.
Proof.
  intros Hlater. cbv zeta. rewrite !state_after_app.
  destruct (progress_keeps_status later
              (state_after (state_after (state_after (state_after (state_after state l1) l2) l3) l4)
                 [(t, ClearTimeout); (t, Dispatch (SET_ERROR err))]) Hlater) as [-> ->].
  split; reflexivity.
Qed.





End Orchestrator.
